(** * qiskit-ibm-runtime: sessions, estimator options and the fake runtime client

    A shallow embedding of
      - [qiskit_ibm_runtime/runtime_session.py]   (module [Session]),
      - [qiskit_ibm_runtime/options/estimator_options.py] (module [Options]),
      - [test/ibm/runtime/fake_runtime_client.py] (module [Fake]),
    with the properties of the session protocol, of option validation and of
    the simulated job life cycle stated over it.

    Python objects are mutable and shared; functions of the embedding take the
    state they read and return the state they leave.  A raised exception is the
    [Raise] arm of [outcome]. *)

From stdpp Require Import gmap strings list fin_maps pretty.
From Stdlib Require Import ZArith Lia.

Local Open Scope string_scope.
Local Open Scope list_scope.

(** ** Python exceptions and results

    [ValueError] is what the option validators raise; the dataclass machinery
    reports it to the caller as a validation error. *)

Inductive exn : Type :=
| RuntimeError (msg : string)
| AttributeError (obj attr : string)
| ValueError (msg : string)
| TypeError (msg : string)
| KeyError (key : string)
| RequestsApiError (msg : string) (status_code : Z).

Inductive outcome (A : Type) : Type :=
| Ok (a : A)
| Raise (e : exn).
Arguments Ok {A} a.
Arguments Raise {A} e.

(** [outcome] is the error monad; [x ← r; k] is stdpp's notation for its bind. *)
#[global] Instance outcome_ret : MRet outcome := fun A a => Ok a.
#[global] Instance outcome_bind : MBind outcome := fun A B k r =>
  match r with Ok a => k a | Raise e => Raise e end.

(** Python's [x or d] on an optional string: [None] and the empty string are
    falsy. *)
Definition str_or (x : option string) (d : string) : string :=
  match x with
  | Some s => if decide (s = "") then d else s
  | None => d
  end.

(** Truthiness of an optional string ([if x:]). *)
Definition truthy (x : option string) : bool :=
  match x with
  | Some s => if decide (s = "") then false else true
  | None => false
  end.

(** * The runtime session *)

Module Session.

(** The options a session is constructed with: [None] (the default), a plain
    [dict] (what the primitives pass) or a [RuntimeOptions] object, of which
    [info] reads the attribute [backend_name]. *)
Record RuntimeOptions : Type := { backend_name : option string }.

Inductive SessionOptions : Type :=
| OptNone
| OptDict (d : gmap string string)
| OptObject (o : RuntimeOptions).

(** Dictionaries live in a heap and are held by reference. *)
Definition loc := positive.

Section WithService.

(** What a program input is (circuits, parameters, ...). *)
Variable Value : Type.

#[local] Abbreviation Dict := (gmap string Value).
#[local] Abbreviation Heap := (gmap loc (gmap string Value)).

(** [RuntimeJob] and the runtime service are collaborators of the session:
    a job has an identifier; the service runs a program, reports the status
    of a job and waits for its result.  The service has a state of its own. *)
Variable Job : Type.
Variable job_id : Job -> string.
Variable Service : Type.
Variable ReadArgs : Type.

Record RunRequest : Type := {
  req_program_id : string;
  req_options : SessionOptions;
  req_inputs : gmap string Value;
  req_session_id : option string
}.

Variable run : Service -> RunRequest -> Service * outcome Job.
Variable job_status : Service -> Job -> outcome string.
Variable job_result : Service -> Job -> ReadArgs -> Service * outcome Value.

(** The world around a session: the heap of dictionaries, the service, and the
    record of every [run] call made so far, oldest first. *)
Record World : Type := {
  heap : gmap loc (gmap string Value);
  service : Service;
  calls : list (RunRequest * outcome Job)
}.

Record RuntimeSession : Type := {
  _program_id : string;
  _options : SessionOptions;
  _initial_inputs : loc;
  _job : option Job;
  _session_id : option string;
  _active : bool
}.

Definition set_job (j : Job) (s : RuntimeSession) : RuntimeSession :=
  {| _program_id := _program_id s; _options := _options s;
     _initial_inputs := _initial_inputs s; _job := Some j;
     _session_id := _session_id s; _active := _active s |}.

Definition set_session_id (sid : string) (s : RuntimeSession) : RuntimeSession :=
  {| _program_id := _program_id s; _options := _options s;
     _initial_inputs := _initial_inputs s; _job := _job s;
     _session_id := Some sid; _active := _active s |}.

Definition set_active (b : bool) (s : RuntimeSession) : RuntimeSession :=
  {| _program_id := _program_id s; _options := _options s;
     _initial_inputs := _initial_inputs s; _job := _job s;
     _session_id := _session_id s; _active := b |}.

(** [RuntimeSession.__init__] *)
Definition __init__ (program_id : string) (inputs : loc)
    (options : SessionOptions) : RuntimeSession :=
  {| _program_id := program_id; _options := options;
     _initial_inputs := inputs; _job := None;
     _session_id := None; _active := true |}.

(** A method of the session: reads and updates the session and the world. *)
Definition method (A : Type) : Type :=
  RuntimeSession * World -> (RuntimeSession * World) * outcome A.

Definition closed_error : exn := RuntimeError "The session is closed.".

(** The decorator [_active_session]. *)
Definition _active_session {A} (func : method A) : method A :=
  fun st =>
    if negb (_active st.1) then (st, Raise closed_error) else func st.

(** [copy.copy(d)] on a dictionary: a new dictionary with the same items. *)
Definition copy_dict (h : Heap) (l : loc) : loc * Heap :=
  let l' := fresh (dom h) in
  (l', <[l' := default ∅ (h !! l)]> h).

(** [d.update(kwargs)]: the items of [kwargs] overwrite those of [d]. *)
Definition dict_update (h : Heap) (l : loc) (kwargs : Dict) : Heap :=
  alter (fun d => kwargs ∪ d) l h.

(** [self._service.run(...)], recorded in [calls]. *)
Definition service_run (w : World) (h : Heap) (req : RunRequest)
    : World * outcome Job :=
  let '(svc, r) := run (service w) req in
  ({| heap := h; service := svc; calls := calls w ++ [(req, r)] |}, r).

(** The body of [RuntimeSession.write]. *)
Definition write_body (kwargs : Dict) : method unit :=
  fun '(self, w) =>
    let '(inputs, h1) := copy_dict (heap w) (_initial_inputs self) in
    let h2 := dict_update h1 inputs kwargs in
    let req := {| req_program_id := _program_id self;
                  req_options := _options self;
                  req_inputs := default ∅ (h2 !! inputs);
                  req_session_id := _session_id self |} in
    match service_run w h2 req with
    | (w', Raise e) => ((self, w'), Raise e)
    | (w', Ok job) =>
        let self := set_job job self in
        let self :=
          match _session_id self with
          | None => set_session_id (job_id job) self
          | Some _ => self
          end in
        ((self, w'), Ok tt)
    end.

Definition write (kwargs : Dict) : method unit :=
  _active_session (write_body kwargs).

(** The body of [RuntimeSession.read]: [self._job.result(...)]. *)
Definition read_body (args : ReadArgs) : method Value :=
  fun '(self, w) =>
    match _job self with
    | None => ((self, w), Raise (AttributeError "NoneType" "result"))
    | Some job =>
        let '(svc, r) := job_result (service w) job args in
        ((self, {| heap := heap w; service := svc; calls := calls w |}), r)
    end.

Definition read (args : ReadArgs) : method Value :=
  _active_session (read_body args).

(** [RuntimeSession.info]; the snapshot is a dictionary of strings. *)
Definition backend_name_of (o : SessionOptions) : outcome (option string) :=
  match o with
  | OptNone => Raise (AttributeError "NoneType" "backend_name")
  | OptDict _ => Raise (AttributeError "dict" "backend_name")
  | OptObject o => Ok (backend_name o)
  end.

Definition info : method (gmap string string) :=
  fun '(self, w) =>
    ((self, w),
     name ← backend_name_of (_options self);
     let out : gmap string string := {[ "backend" := str_or name "unknown" ]} in
     match _job self with
     | Some job =>
         let out := <[ "job id" := job_id job ]> out in
         status ← job_status (service w) job;
         Ok (<[ "job status" := status ]> out)
     | None => Ok out
     end).

(** [RuntimeSession.close] and leaving a [with] block. *)
Definition close : method unit :=
  fun '(self, w) => ((set_active false self, w), Ok tt).

Definition __enter__ : method RuntimeSession :=
  fun '(self, w) => ((self, w), Ok self).

Definition __exit__ : method unit :=
  fun '(self, w) => ((set_active false self, w), Ok tt).

(** A caller that calls [write] with each of [ks] in turn and goes on
    whatever a call raises. *)
Fixpoint writes (ks : list Dict) (st : RuntimeSession * World)
    : RuntimeSession * World :=
  match ks with
  | [] => st
  | k :: ks' => writes ks' (write k st).1
  end.

(** The calls a caller makes on a session, and what each raises. *)
Inductive call : Type :=
| CallWrite (kwargs : gmap string Value)
| CallRead (args : ReadArgs)
| CallInfo
| CallClose
| CallExit.

Definition guarded (c : call) : bool :=
  match c with CallWrite _ | CallRead _ => true | _ => false end.

Definition raised {A} (r : outcome A) : option exn :=
  match r with Ok _ => None | Raise e => Some e end.

Definition do_call (c : call) (st : RuntimeSession * World)
    : (RuntimeSession * World) * option exn :=
  match c with
  | CallWrite kwargs => let '(st', r) := write kwargs st in (st', raised r)
  | CallRead args => let '(st', r) := read args st in (st', raised r)
  | CallInfo => let '(st', r) := info st in (st', raised r)
  | CallClose => let '(st', r) := close st in (st', raised r)
  | CallExit => let '(st', r) := __exit__ st in (st', raised r)
  end.

Fixpoint do_calls (cs : list call) (st : RuntimeSession * World)
    : (RuntimeSession * World) * list (option exn) :=
  match cs with
  | [] => (st, [])
  | c :: cs' =>
      let '(st1, e) := do_call c st in
      let '(st2, es) := do_calls cs' st1 in
      (st2, e :: es)
  end.

(** The jobs among recorded calls, each with the request that started it. *)
Definition submitted (evs : list (RunRequest * outcome Job))
    : list (RunRequest * Job) :=
  omap (fun ev => match ev.2 with Ok j => Some (ev.1, j) | Raise _ => None end) evs.

(** The session a job belongs to: the identifier its request carried or, for a
    request that carried none, the identifier of the job itself, which is what
    [write] then keeps as [_session_id]. *)
Definition session_of (rj : RunRequest * Job) : string :=
  default (job_id rj.2) (req_session_id rj.1).

End WithService.

Arguments req_program_id {Value} r.
Arguments req_options {Value} r.
Arguments req_inputs {Value} r.
Arguments req_session_id {Value} r.
Arguments heap {Value Job Service} w.
Arguments service {Value Job Service} w.
Arguments calls {Value Job Service} w.
Arguments _program_id {Job} r.
Arguments _options {Job} r.
Arguments _initial_inputs {Job} r.
Arguments _job {Job} r.
Arguments _session_id {Job} r.
Arguments _active {Job} r.
Arguments __init__ {Job} program_id inputs options.
Arguments write {Value Job} job_id {Service} run kwargs st.
Arguments writes {Value Job} job_id {Service} run ks st.
Arguments read {Value Job Service ReadArgs} job_result args st.
Arguments info {Value Job} job_id {Service} job_status st.
Arguments close {Value Job Service} st.
Arguments __enter__ {Value Job Service} st.
Arguments __exit__ {Value Job Service} st.
Arguments do_call {Value Job} job_id {Service ReadArgs} run job_status job_result c st.
Arguments do_calls {Value Job} job_id {Service ReadArgs} run job_status job_result cs st.
Arguments CallWrite {Value ReadArgs} kwargs.
Arguments CallRead {Value ReadArgs} args.
Arguments CallInfo {Value ReadArgs}.
Arguments CallClose {Value ReadArgs}.
Arguments CallExit {Value ReadArgs}.
Arguments guarded {Value ReadArgs} c.
Arguments submitted {Value Job} evs.
Arguments session_of {Value Job} job_id rj.

(** The options [IBMEstimator.__call__] and [IBMSampler.__call__] build: a
    plain dictionary. *)
Definition primitive_options (backend : option string) : SessionOptions :=
  let options : gmap string string := ∅ in
  let options :=
    match backend with
    | Some b => if decide (b = "") then options else <["backend_name" := b]> options
    | None => options
    end in
  OptDict (<["image" := "expval:748ef50"]> options).

(** The sessions the two primitives return, given the dictionary of inputs. *)
Definition EstimatorSession {Job} (backend : option string) (inputs : loc)
    : RuntimeSession Job :=
  __init__ "estimator-X322y4G534" inputs (primitive_options backend).

Definition SamplerSession {Job} (backend : option string) (inputs : loc)
    : RuntimeSession Job :=
  __init__ "sampler-Yxk1ZM0Rlm" inputs (primitive_options backend).

End Session.

(** * Estimator options *)

Module Options.

(** The sentinel [Unset] of [UnsetType], against a concrete value. *)
Inductive ConfigValue (T : Type) : Type :=
| Unset
| Value (v : T).
Arguments Unset {T}.
Arguments Value {T} v.

(** [isinstance(v, UnsetType)] *)
Definition is_unset {T} (v : ConfigValue T) : bool :=
  match v with Unset => true | Value _ => false end.

(** Modelled from the spec: the decorator [skip_unset_validation] of
    [options/utils.py], which is not among the sources.  "A validator never
    runs against Unset - validation is skipped entirely for unset fields,
    applied only when a concrete value is present." *)
Definition skip_unset_validation {T} (func : T -> outcome T)
    : ConfigValue T -> outcome (ConfigValue T) :=
  fun val =>
    match val with
    | Unset => Ok Unset
    | Value v => v' ← func v; Ok (Value v')
    end.

Inductive DDSequenceType : Type := XX | XpXm | XY4.

Definition CouplingMap : Type := list (list Z).

(** Modelled from the spec: the option group [SimulatorOptions]
    ([options/simulator_options.py] is not among the sources), of which the
    model validator reads [coupling_map]; the field [simulator] itself is
    inherited from [OptionsV2]. *)
Record SimulatorOptions : Type := {
  coupling_map : ConfigValue CouplingMap
}.

(** The fields of [EstimatorOptions] its validators read or guard, and
    [dynamical_decoupling] as a field without a validator.  The nested groups
    [transpilation], [resilience], [execution] and [twirling] are read by no
    validator of this class. *)
Record EstimatorOptions : Type := {
  _version : Z;
  _is_simulator : bool;
  optimization_level : ConfigValue Z;
  resilience_level : ConfigValue Z;
  dynamical_decoupling : ConfigValue DDSequenceType;
  simulator : SimulatorOptions
}.

Definition _MAX_OPTIMIZATION_LEVEL : Z := 3.
Definition _MAX_RESILIENCE_LEVEL : Z := 3.

Definition range_message : string :=
  "Invalid optimization_level. Valid range is 0-3".

(** [_validate_optimization_level], under [@skip_unset_validation]. *)
Definition _validate_optimization_level_body (optimization_level : Z) : outcome Z :=
  if negb ((0 <=? optimization_level)%Z && (optimization_level <=? 3)%Z)
  then Raise (ValueError range_message)
  else Ok optimization_level.

Definition _validate_optimization_level
    : ConfigValue Z -> outcome (ConfigValue Z) :=
  skip_unset_validation _validate_optimization_level_body.

(** [_validate_resilience_level], under [@skip_unset_validation]; its message
    names [optimization_level] as well. *)
Definition _validate_resilience_level_body (resilience_level : Z) : outcome Z :=
  if negb ((0 <=? resilience_level)%Z
           && (resilience_level <=? _MAX_RESILIENCE_LEVEL)%Z)
  then Raise (ValueError range_message)
  else Ok resilience_level.

Definition _validate_resilience_level
    : ConfigValue Z -> outcome (ConfigValue Z) :=
  skip_unset_validation _validate_resilience_level_body.

(** [self.resilience_level == 3]: [Unset] equals no integer. *)
Definition level_eqb (v : ConfigValue Z) (n : Z) : bool :=
  match v with Unset => false | Value x => (x =? n)%Z end.

Definition coupling_map_message : string :=
  "When the backend is a simulator and resilience_level == 3,a coupling map is required.".

(** The condition the model validator tests. *)
Definition coupling_map_missing (self : EstimatorOptions) : bool :=
  level_eqb (resilience_level self) 3
  && _is_simulator self
  && is_unset (coupling_map (simulator self)).

(** The model validator [_validate_options] (mode "after"). *)
Definition _validate_options (self : EstimatorOptions) : outcome EstimatorOptions :=
  if coupling_map_missing self
  then Raise (ValueError coupling_map_message)
  else Ok self.

(** An assignment [options.<field> = value], or a keyword argument of the
    constructor. *)
Inductive assignment : Type :=
| Set_is_simulator (b : bool)
| Set_optimization_level (v : ConfigValue Z)
| Set_resilience_level (v : ConfigValue Z)
| Set_dynamical_decoupling (v : ConfigValue DDSequenceType)
| Set_simulator (g : SimulatorOptions).

(** The field validators registered with [@field_validator]. *)
Definition validate_field (a : assignment) : outcome assignment :=
  match a with
  | Set_optimization_level v =>
      v' ← _validate_optimization_level v; Ok (Set_optimization_level v')
  | Set_resilience_level v =>
      v' ← _validate_resilience_level v; Ok (Set_resilience_level v')
  | _ => Ok a
  end.

(** Storing the validated value in the object. *)
Definition store (o : EstimatorOptions) (a : assignment) : EstimatorOptions :=
  match a with
  | Set_is_simulator b =>
      {| _version := _version o; _is_simulator := b;
         optimization_level := optimization_level o;
         resilience_level := resilience_level o;
         dynamical_decoupling := dynamical_decoupling o;
         simulator := simulator o |}
  | Set_optimization_level v =>
      {| _version := _version o; _is_simulator := _is_simulator o;
         optimization_level := v;
         resilience_level := resilience_level o;
         dynamical_decoupling := dynamical_decoupling o;
         simulator := simulator o |}
  | Set_resilience_level v =>
      {| _version := _version o; _is_simulator := _is_simulator o;
         optimization_level := optimization_level o;
         resilience_level := v;
         dynamical_decoupling := dynamical_decoupling o;
         simulator := simulator o |}
  | Set_dynamical_decoupling v =>
      {| _version := _version o; _is_simulator := _is_simulator o;
         optimization_level := optimization_level o;
         resilience_level := resilience_level o;
         dynamical_decoupling := v;
         simulator := simulator o |}
  | Set_simulator g =>
      {| _version := _version o; _is_simulator := _is_simulator o;
         optimization_level := optimization_level o;
         resilience_level := resilience_level o;
         dynamical_decoupling := dynamical_decoupling o;
         simulator := g |}
  end.

(** [options.<field> = value] under [validate_assignment=True]: the field's
    validator runs on the value, then the model validator on the object that
    holds it.  The result is the object when the assignment returns, or the
    exception it raises. *)
Definition setattr (o : EstimatorOptions) (a : assignment)
    : outcome EstimatorOptions :=
  a' ← validate_field a; _validate_options (store o a').

(** The class defaults. *)
Definition defaults : EstimatorOptions :=
  {| _version := 2; _is_simulator := false;
     optimization_level := Unset; resilience_level := Unset;
     dynamical_decoupling := Unset;
     simulator := {| coupling_map := Unset |} |}.

(** The constructor, called with keyword arguments: the given fields are validated and stored
    over the defaults, then the model validator runs once. *)
Definition __init__ (kwargs : list assignment) : outcome EstimatorOptions :=
  kwargs' ← mapM validate_field kwargs;
  _validate_options (foldl store defaults kwargs').

(** Modelled from the spec: an assignment to a field of the nested group,
    [options.simulator.coupling_map = value], the class [SimulatorOptions]
    being absent from the sources.  "Cross-field validation re-runs whenever
    any field referenced by a rule changes (not just on leaf update)", the
    validation being "re-run on every mutation that could affect the
    constraint": the coupling map has no rule of its own, and the rule of
    [_validate_options], which reads it, runs on the options with the new
    value stored. *)
Definition set_simulator_coupling_map (o : EstimatorOptions)
    (v : ConfigValue CouplingMap) : outcome EstimatorOptions :=
  _validate_options (store o (Set_simulator {| coupling_map := v |})).

End Options.

(** * The fake runtime client *)

Module Fake.

(** A Python [dict] with string keys, in insertion order. *)
Definition dict_get {V} (k : string) (d : list (string * V)) : option V :=
  snd <$> find (fun kv => bool_decide (kv.1 = k)) d.

Fixpoint dict_set {V} (k : string) (v : V) (d : list (string * V))
    : list (string * V) :=
  match d with
  | [] => [(k, v)]
  | (k', v') :: d' =>
      if decide (k' = k) then (k, v) :: d' else (k', v') :: dict_set k v d'
  end.

Definition dict_del {V} (k : string) (d : list (string * V))
    : list (string * V) :=
  filter (fun kv => kv.1 ≠ k) d.

(** [x or y] on optional strings. *)
Definition opt_or (x y : option string) : option string :=
  if truthy x then x else y.

(** [n or d] on an optional integer: [None] and [0] are falsy. *)
Definition nat_or (n : option nat) (d : nat) : nat :=
  match n with
  | Some (S k) => S k
  | _ => d
  end.

(** [json.dumps] of a string of plain letters: the string between double
    quotes. *)
Definition dquote : string := String (Ascii.ascii_of_nat 34) "".
Definition json_dumps (s : string) : string := dquote +:+ s +:+ dquote.

(** ** Jobs *)

Module FakeJob.

Inductive job_class : Type :=
| BaseFakeRuntimeJob
| FailedRuntimeJob
| FailedRanTooLongRuntimeJob
| CancelableRuntimeJob
| CustomResultRuntimeJob
| TimedRuntimeJob.

#[global] Instance job_class_eq_dec : EqDecision job_class.
Proof. solve_decision. Defined.

Definition class_name (c : job_class) : string :=
  match c with
  | BaseFakeRuntimeJob => "BaseFakeRuntimeJob"
  | FailedRuntimeJob => "FailedRuntimeJob"
  | FailedRanTooLongRuntimeJob => "FailedRanTooLongRuntimeJob"
  | CancelableRuntimeJob => "CancelableRuntimeJob"
  | CustomResultRuntimeJob => "CustomResultRuntimeJob"
  | TimedRuntimeJob => "TimedRuntimeJob"
  end.

(** The class attribute [_job_progress]. *)
Definition _job_progress (c : job_class) : list string :=
  match c with
  | FailedRuntimeJob => ["QUEUED"; "RUNNING"; "FAILED"]
  | FailedRanTooLongRuntimeJob => ["QUEUED"; "RUNNING"; "CANCELLED - RAN TOO LONG"]
  | CancelableRuntimeJob => ["QUEUED"; "RUNNING"]
  | _ => ["QUEUED"; "RUNNING"; "COMPLETED"]
  end.

Definition custom_result : string := "bar".

(** The statements of [_auto_progress] that write to the job or can end the
    task: an assignment to [_status], a guarded assignment to [_result], and
    [time.sleep(self._runtime)], which raises on a negative length.  The sleeps
    of half a second write nothing and are left out; another thread may read
    the job between any two statements. *)
Inductive instr : Type :=
| SetStatus (status : string)
| SetResultIf (status : string) (payload : string)
| SleepRuntime.

(** [BaseFakeRuntimeJob._auto_progress], with the [_job_progress] of the class
    of [self]. *)
Definition base_auto_progress (c : job_class) : list instr :=
  (SetStatus <$> _job_progress c) ++ [SetResultIf "COMPLETED" (json_dumps "foo")].

(** [_auto_progress] as each class defines or inherits it. *)
Definition _auto_progress (c : job_class) : list instr :=
  match c with
  | BaseFakeRuntimeJob | CancelableRuntimeJob => base_auto_progress c
  | FailedRuntimeJob =>
      base_auto_progress c ++ [SetResultIf "FAILED" "Kaboom!"]
  | FailedRanTooLongRuntimeJob =>
      base_auto_progress c ++ [SetResultIf "CANCELLED - RAN TOO LONG" "Kaboom!"]
  | CustomResultRuntimeJob =>
      base_auto_progress c ++ [SetResultIf "COMPLETED" (json_dumps custom_result)]
  | TimedRuntimeJob =>
      [SetStatus "RUNNING"; SleepRuntime; SetStatus "COMPLETED";
       SetResultIf "COMPLETED" (json_dumps "foo")]
  end.

(** The future [_executor.submit] returns: waiting for a worker, running with
    the statements it has left, finished, or cancelled before it started. *)
Inductive future : Type :=
| Pending (code : list instr)
| Running (code : list instr)
| Finished
| Cancelled.

(** [Future.cancel]: only a future that has not started is cancelled; on a
    running or finished one the call changes nothing. *)
Definition future_cancel (f : future) : future :=
  match f with
  | Pending _ => Cancelled
  | _ => f
  end.

(** A job object.  [_future] and [_result] are attributes that [__init__] sets
    on some paths only: [None] is the attribute missing, and [Some None] in
    [_result] is the Python value [None]. *)
Record job : Type := {
  cls : job_class;
  _job_id : string;
  _status : string;
  _program_id : string;
  _hub : option string;
  _group : option string;
  _project : option string;
  _backend_name : option string;
  _params : string;
  _image : option string;
  _future : option future;
  _result : option (option string);
  _final_status : option string;
  _runtime : option Z;
  _cancelled : bool
}.

Definition set_status (s : string) (j : job) : job :=
  {| cls := cls j; _job_id := _job_id j; _status := s;
     _program_id := _program_id j; _hub := _hub j; _group := _group j;
     _project := _project j; _backend_name := _backend_name j;
     _params := _params j; _image := _image j; _future := _future j;
     _result := _result j; _final_status := _final_status j;
     _runtime := _runtime j; _cancelled := _cancelled j |}.

Definition set_result (r : option string) (j : job) : job :=
  {| cls := cls j; _job_id := _job_id j; _status := _status j;
     _program_id := _program_id j; _hub := _hub j; _group := _group j;
     _project := _project j; _backend_name := _backend_name j;
     _params := _params j; _image := _image j; _future := _future j;
     _result := Some r; _final_status := _final_status j;
     _runtime := _runtime j; _cancelled := _cancelled j |}.

Definition set_future (f : future) (j : job) : job :=
  {| cls := cls j; _job_id := _job_id j; _status := _status j;
     _program_id := _program_id j; _hub := _hub j; _group := _group j;
     _project := _project j; _backend_name := _backend_name j;
     _params := _params j; _image := _image j; _future := Some f;
     _result := _result j; _final_status := _final_status j;
     _runtime := _runtime j; _cancelled := _cancelled j |}.

Definition set_cancelled (b : bool) (j : job) : job :=
  {| cls := cls j; _job_id := _job_id j; _status := _status j;
     _program_id := _program_id j; _hub := _hub j; _group := _group j;
     _project := _project j; _backend_name := _backend_name j;
     _params := _params j; _image := _image j; _future := _future j;
     _result := _result j; _final_status := _final_status j;
     _runtime := _runtime j; _cancelled := b |}.

(** [__init__], from [BaseFakeRuntimeJob] through the subclasses.  [run_time]
    is the keyword [TimedRuntimeJob] pops; the other classes do not take it.
    The constructor is one step here: the task it submits begins by sleeping
    (in [TimedRuntimeJob], by writing the status and then sleeping), and the
    constructor has returned by the time the task goes on. *)
Definition __init__ (c : job_class) (job_id program_id : string)
    (hub group project backend_name : option string)
    (final_status : option string) (params : string) (image : option string)
    (run_time : option Z) : outcome job :=
  match c, run_time with
  | TimedRuntimeJob, None => Raise (KeyError "run_time")
  | TimedRuntimeJob, Some _ | _, None =>
      Ok {| cls := c; _job_id := job_id;
            _status := str_or final_status "QUEUED";
            _program_id := program_id;
            _hub := hub; _group := group; _project := project;
            _backend_name := backend_name; _params := params; _image := image;
            _future :=
              match final_status with
              | None => Some (Pending (_auto_progress c))
              | Some _ => None
              end;
            _result :=
              match final_status with
              | None => Some None
              | Some s =>
                  if decide (s = "COMPLETED") then Some (Some (json_dumps "foo"))
                  else None
              end;
            _final_status := final_status;
            _runtime := run_time;
            _cancelled := false |}
  | _, Some _ =>
      Raise (TypeError "__init__() got an unexpected keyword argument 'run_time'")
  end.

(** One statement of the progress task. *)
Definition exec (i : instr) (j : job) : job :=
  match i with
  | SetStatus s => set_status s j
  | SetResultIf s payload =>
      if decide (_status j = s) then set_result (Some payload) j else j
  | SleepRuntime => j
  end.

(** Whether a statement raises: [time.sleep] does on a negative length (and on
    a length that is not there). *)
Definition raises (i : instr) (j : job) : bool :=
  match i with
  | SleepRuntime =>
      match _runtime j with
      | Some seconds => (seconds <? 0)%Z
      | None => true
      end
  | _ => false
  end.

(** One step of the task behind [_future]: a worker takes it up, it runs its
    next statement, or it returns; a statement that raises ends the task, what
    it had left undone.  [None] when the job has no task that can move. *)
Definition step (j : job) : option job :=
  match _future j with
  | Some (Pending code) => Some (set_future (Running code) j)
  | Some (Running (i :: code)) =>
      if raises i j then Some (set_future Finished j)
      else Some (set_future (Running code) (exec i j))
  | Some (Running []) => Some (set_future Finished j)
  | Some Finished | Some Cancelled | None => None
  end.

(** The job after [n] steps of its task; it stays as it is once the task can
    no longer move. *)
Fixpoint progress (n : nat) (j : job) : job :=
  match n with
  | O => j
  | S n' => match step j with Some j' => progress n' j' | None => j end
  end.

(** The dictionary [to_dict] returns. *)
Record job_dict : Type := {
  id : string;
  hub : option string;
  group : option string;
  project : option string;
  backend : option string;
  status : string;
  params : list string;
  program : string;
  image : option string
}.

Definition base_to_dict (j : job) : job_dict :=
  {| id := _job_id j; hub := _hub j; group := _group j; project := _project j;
     backend := _backend_name j; status := _status j; params := [_params j];
     program := _program_id j; image := _image j |}.

Definition with_status (s : string) (d : job_dict) : job_dict :=
  {| id := id d; hub := hub d; group := group d; project := project d;
     backend := backend d; status := s; params := params d;
     program := program d; image := image d |}.

(** [to_dict]; [CancelableRuntimeJob] overrides it. *)
Definition to_dict (j : job) : job_dict :=
  match cls j with
  | CancelableRuntimeJob =>
      let data := base_to_dict j in
      if _cancelled j then with_status "CANCELLED" data else data
  | _ => base_to_dict j
  end.

(** [result()]: the attribute [_result]. *)
Definition result (j : job) : outcome (option string) :=
  match _result j with
  | Some r => Ok r
  | None => Raise (AttributeError (class_name (cls j)) "_result")
  end.

(** [cancel()]: only [CancelableRuntimeJob] defines it. *)
Definition cancel (j : job) : outcome job :=
  match cls j with
  | CancelableRuntimeJob =>
      match _future j with
      | Some f => Ok (set_cancelled true (set_future (future_cancel f) j))
      | None => Raise (AttributeError "CancelableRuntimeJob" "_future")
      end
  | c => Raise (AttributeError (class_name c) "cancel")
  end.

End FakeJob.

(** ** The client *)

Module FakeClient.

Import FakeJob.

(** The [Credentials] passed to [program_run]. *)
Record Credentials : Type := {
  cred_hub : option string;
  cred_group : option string;
  cred_project : option string
}.

(** [BaseFakeRuntimeClient], without its program registry.  [_job_kwargs] is
    empty or holds [run_time]. *)
Record client : Type := {
  _jobs : list (string * job);
  _job_classes : list job_class;
  _final_status : option string;
  _job_kwargs : option Z;
  _hub : option string;
  _group : option string;
  _project : option string
}.

Definition set_jobs (jobs : list (string * job)) (c : client) : client :=
  {| _jobs := jobs; _job_classes := _job_classes c;
     _final_status := _final_status c; _job_kwargs := _job_kwargs c;
     _hub := _hub c; _group := _group c; _project := _project c |}.

Definition set_job_classes (classes : list job_class) (c : client) : client :=
  {| _jobs := _jobs c; _job_classes := classes;
     _final_status := _final_status c; _job_kwargs := _job_kwargs c;
     _hub := _hub c; _group := _group c; _project := _project c |}.

Definition set_final_status (final_status : option string) (c : client) : client :=
  {| _jobs := _jobs c; _job_classes := _job_classes c;
     _final_status := final_status; _job_kwargs := _job_kwargs c;
     _hub := _hub c; _group := _group c; _project := _project c |}.

Definition set_hgp (hub group project : option string) (c : client) : client :=
  {| _jobs := _jobs c; _job_classes := _job_classes c;
     _final_status := _final_status c; _job_kwargs := _job_kwargs c;
     _hub := hub; _group := group; _project := project |}.

(** [BaseFakeRuntimeClient.__init__]; [job_classes or []] and
    [job_kwargs or {}] are the arguments themselves here. *)
Definition __init__ (job_classes : list job_class) (final_status : option string)
    (job_kwargs : option Z) (hub group project : option string) : client :=
  {| _jobs := []; _job_classes := job_classes; _final_status := final_status;
     _job_kwargs := job_kwargs; _hub := hub; _group := group;
     _project := project |}.

(** [program_run]; [uuid] is the identifier [uuid.uuid4().hex] draws.  The
    class is popped from [_job_classes] before the job is constructed. *)
Definition program_run (uuid : string) (program_id : string)
    (credentials : Credentials) (backend_name : option string)
    (params : string) (image : option string) (c : client)
    : client * outcome string :=
  let job_id := uuid in
  let '(job_cls, c) :=
    match _job_classes c with
    | k :: rest => (k, set_job_classes rest c)
    | [] => (BaseFakeRuntimeJob, c)
    end in
  let hub := opt_or (_hub c) (cred_hub credentials) in
  let group := opt_or (_group c) (cred_group credentials) in
  let project := opt_or (_project c) (cred_project credentials) in
  match FakeJob.__init__ job_cls job_id program_id hub group project
          backend_name (_final_status c) params image (_job_kwargs c) with
  | Raise e => (c, Raise e)
  | Ok job => (set_jobs (dict_set job_id job (_jobs c)) c, Ok job_id)
  end.

(** [_get_job] *)
Definition _get_job (job_id : string) (c : client) : outcome job :=
  match dict_get job_id (_jobs c) with
  | None => Raise (RequestsApiError "Job not found" 404)
  | Some j => Ok j
  end.

(** [job_get] *)
Definition job_get (job_id : string) (c : client) : outcome job_dict :=
  j ← _get_job job_id c; Ok (to_dict j).

(** The result of [jobs_get]. *)
Record jobs_response : Type := {
  jobs : list job_dict;
  count : nat
}.

(** [jobs_get]; [limit] and [skip] are natural numbers or [None]. *)
Definition jobs_get (limit skip : option nat) (pending : option bool)
    (program_id hub group project : option string) (c : client)
    : jobs_response :=
  let pending_statuses := ["QUEUED"; "RUNNING"] in
  let returned_statuses := ["COMPLETED"; "FAILED"; "CANCELLED"] in
  let limit := nat_or limit (length (_jobs c)) in
  let skip := nat_or skip 0 in
  let jobs := snd <$> _jobs c in
  let count := length (_jobs c) in
  let '(jobs, count) :=
    match pending with
    | Some p =>
        let job_status_list := if p then pending_statuses else returned_statuses in
        let jobs := filter (fun job => FakeJob._status job ∈ job_status_list) jobs in
        (jobs, length jobs)
    | None => (jobs, count)
    end in
  let '(jobs, count) :=
    if truthy program_id then
      let jobs := filter (fun job => Some (FakeJob._program_id job) = program_id) jobs in
      (jobs, length jobs)
    else (jobs, count) in
  let '(jobs, count) :=
    if truthy hub && truthy group && truthy project then
      let jobs := filter (fun job => FakeJob._hub job = hub
                                     ∧ FakeJob._group job = group
                                     ∧ FakeJob._project job = project) jobs in
      (jobs, length jobs)
    else (jobs, count) in
  let jobs := take limit (drop skip jobs) in
  {| jobs := to_dict <$> jobs; count := count |}.

(** [job_results] *)
Definition job_results (job_id : string) (c : client) : outcome (option string) :=
  j ← _get_job job_id c; FakeJob.result j.

(** [job_cancel]: the job object is changed in place. *)
Definition job_cancel (job_id : string) (c : client) : client * outcome unit :=
  match j ← _get_job job_id c; cancel j with
  | Raise e => (c, Raise e)
  | Ok j' => (set_jobs (dict_set job_id j' (_jobs c)) c, Ok tt)
  end.

(** [job_delete] *)
Definition job_delete (job_id : string) (c : client) : client * outcome unit :=
  match _get_job job_id c with
  | Raise e => (c, Raise e)
  | Ok _ => (set_jobs (dict_del job_id (_jobs c)) c, Ok tt)
  end.

(** The progress task of job [job_id] makes one step. *)
Definition tick (job_id : string) (c : client) : client :=
  match dict_get job_id (_jobs c) with
  | Some j =>
      match step j with
      | Some j' => set_jobs (dict_set job_id j' (_jobs c)) c
      | None => c
      end
  | None => c
  end.

(** [n] steps of that task, one after the other. *)
Fixpoint ticks (n : nat) (job_id : string) (c : client) : client :=
  match n with
  | O => c
  | S n' => tick job_id (ticks n' job_id c)
  end.

(** The status a caller reads: [job_get(job_id)['status']]. *)
Definition read_status (job_id : string) (c : client) : outcome string :=
  d ← job_get job_id c; Ok (status d).

End FakeClient.

End Fake.

(** * Concrete inputs *)

Module Examples.

(** A service that numbers the jobs it starts; a job is its identifier. *)
Definition counting_run (n : nat) (req : Session.RunRequest Z)
    : nat * outcome string :=
  (S n, Ok ("job-" +:+ pretty n)).

Definition job_name (job : string) : string := job.

(** A sampler session over initial inputs [{"shots": 10}] held at location 1,
    in a world where nothing has been run. *)
Definition initial_inputs : gmap string Z := {[ "shots" := 10%Z ]}.

Definition session : Session.RuntimeSession string :=
  Session.SamplerSession None 1%positive.

Definition world : Session.World Z string nat :=
  {| Session.heap := {[ 1%positive := initial_inputs ]};
     Session.service := 0;
     Session.calls := [] |}.

(** Two writes: one that overrides [shots], one without keyword arguments. *)
Definition two_writes : list (gmap string Z) :=
  [ {[ "shots" := 20%Z ]}; ∅ ].

(** Options flagged for a simulator, with nothing else set. *)
Definition simulator_options : Options.EstimatorOptions :=
  Options.store Options.defaults (Options.Set_is_simulator true).

(** Options with [resilience_level == 3], not flagged for a simulator. *)
Definition level_3_options : Options.EstimatorOptions :=
  Options.store Options.defaults (Options.Set_resilience_level (Options.Value 3%Z)).

Definition line_coupling_map : Options.CouplingMap := [[0; 1]; [1; 0]]%Z.

Definition credentials : Fake.FakeClient.Credentials :=
  {| Fake.FakeClient.cred_hub := Some "hub";
     Fake.FakeClient.cred_group := Some "group";
     Fake.FakeClient.cred_project := Some "project" |}.

(** A client with nothing queued, and one whose next job is cancelable. *)
Definition default_client : Fake.FakeClient.client :=
  Fake.FakeClient.__init__ [] None None None None None.

Definition cancelable_client : Fake.FakeClient.client :=
  (Fake.FakeClient.program_run "job-1" "sampler" credentials None "{}" None
     (Fake.FakeClient.__init__ [Fake.FakeJob.CancelableRuntimeJob]
        None None None None None)).1.

End Examples.

(** * The program registry of the fake client *)

Module FakePrograms.

Import Fake.

(** [s.lower()] on a string of ASCII characters. *)
Definition lower_ascii (a : Ascii.ascii) : Ascii.ascii :=
  let n := Ascii.nat_of_ascii a in
  if (65 <=? n)%nat && (n <=? 90)%nat then Ascii.ascii_of_nat (n + 32) else a.

Fixpoint lower (s : string) : string :=
  match s with
  | EmptyString => EmptyString
  | String a s' => String (lower_ascii a) (lower s')
  end.

(** [sub in s] on strings. *)
Fixpoint contains (sub s : string) : bool :=
  String.prefix sub s
  || match s with
     | EmptyString => false
     | String _ s' => contains sub s'
     end.

Section WithSpec.

(** The values a program's spec holds (JSON documents), with Python's
    truthiness on them; and [base64.standard_b64decode(d).decode()], which
    raises on data that is not base64. *)
Variable Spec : Type.
Variable spec_truthy : Spec -> bool.
Variable b64decode : string -> outcome string.

(** Truthiness of an optional spec value; [None] is falsy. *)
Definition opt_truthy (x : option Spec) : bool :=
  match x with Some v => spec_truthy v | None => false end.

(** [x or y] on optional spec values. *)
Definition spec_or (x y : option Spec) : option Spec :=
  if opt_truthy x then x else y.

(** [n or m] on an optional integer, [m] an integer. *)
Definition int_or (n : option Z) (m : Z) : Z :=
  match n with
  | Some k => if decide (k = 0%Z) then m else k
  | None => m
  end.

(** [BaseFakeProgram] *)
Record program : Type := {
  _id : string;
  _name : string;
  _data : string;
  _cost : Z;
  _description : string;
  _backend_requirements : option Spec;
  _parameters : option Spec;
  _return_values : option Spec;
  _interim_results : option Spec;
  _is_public : bool
}.

(** The [spec] dictionary, of a program or of a request: a key that is absent
    is [None]. *)
Record spec_dict : Type := {
  backend_requirements : option Spec;
  parameters : option Spec;
  return_values : option Spec;
  interim_results : option Spec
}.

(** The dictionary [to_dict] returns; [data] is present with
    [include_data]. *)
Record program_dict : Type := {
  id : string;
  name : string;
  cost : Z;
  description : string;
  is_public : bool;
  creation_date : string;
  update_date : string;
  data : option string;
  spec : spec_dict
}.

(** [if self._x: out['spec'][key] = self._x] *)
Definition spec_entry (x : option Spec) : option Spec :=
  if opt_truthy x then x else None.

Definition dict_of (p : program) (data : option string) : program_dict :=
  {| id := _id p; name := _name p; cost := _cost p;
     description := _description p; is_public := _is_public p;
     creation_date := "2021-09-13T17:27:42Z";
     update_date := "2021-09-14T19:25:32Z";
     data := data;
     spec := {| backend_requirements := spec_entry (_backend_requirements p);
                parameters := spec_entry (_parameters p);
                return_values := spec_entry (_return_values p);
                interim_results := spec_entry (_interim_results p) |} |}.

(** [BaseFakeProgram.to_dict] *)
Definition to_dict (p : program) (include_data : bool) : outcome program_dict :=
  if include_data then d ← b64decode (_data p); Ok (dict_of p (Some d))
  else Ok (dict_of p None).

(** The attribute [_programs] of the client: a dictionary in insertion
    order.  The methods below read and write nothing else of the client. *)
Definition registry : Type := list (string * program).

(** The result of [list_programs]. *)
Record programs_response : Type := {
  programs : list program_dict;
  count : nat
}.

(** One round of the loop of [list_programs]; [to_dict()] is without data.
    With [search] being [None], the test [search in ...] raises. *)
Definition list_programs_step (search : option string)
    (programs : list program_dict) (prog : program)
    : outcome (list program_dict) :=
  let d := dict_of prog None in
  let programs := if negb (truthy search) then programs ++ [d] else programs in
  match search with
  | None =>
      Raise (TypeError "'in <string>' requires string as left operand, not NoneType")
  | Some s =>
      if contains s (lower (name d)) || contains s (lower (description d))
      then Ok (programs ++ [d])
      else Ok programs
  end.

Fixpoint list_programs_loop (search : option string)
    (programs : list program_dict) (progs : list program)
    : outcome (list program_dict) :=
  match progs with
  | [] => Ok programs
  | prog :: progs' =>
      programs' ← list_programs_step search programs prog;
      list_programs_loop search programs' progs'
  end.

(** [list_programs]; [limit] and [skip] are natural numbers. *)
Definition list_programs (search : option string) (limit skip : nat)
    (r : registry) : outcome programs_response :=
  programs ← list_programs_loop search [] (snd <$> r);
  Ok {| programs := take limit (drop skip programs);
        count := length programs |}.

Definition not_found : exn := RequestsApiError "Program not found" 404.

(** [program_create]; with the default [spec=None] the call [spec.get]
    raises. *)
Definition program_create (program_data name description : string)
    (max_execution_time : Z) (spec : option spec_dict) (is_public : bool)
    (r : registry) : registry * outcome string :=
  let program_id := name in
  match dict_get program_id r with
  | Some _ => (r, Raise (RequestsApiError "Program already exists." 409))
  | None =>
      match spec with
      | None => (r, Raise (AttributeError "NoneType" "get"))
      | Some spec =>
          (dict_set program_id
             {| _id := program_id; _name := name; _data := program_data;
                _cost := max_execution_time; _description := description;
                _backend_requirements := backend_requirements spec;
                _parameters := parameters spec;
                _return_values := return_values spec;
                _interim_results := interim_results spec;
                _is_public := is_public |} r,
           Ok program_id)
      end
  end.

(** The program [program_update] leaves.  An empty [spec] dictionary skips
    the last four assignments, which then would keep the old values too. *)
Definition updated (p : program) (program_data name description : option string)
    (max_execution_time : option Z) (spec : option spec_dict) : program :=
  {| _id := _id p;
     _name := str_or name (_name p);
     _data := str_or program_data (_data p);
     _cost := int_or max_execution_time (_cost p);
     _description := str_or description (_description p);
     _backend_requirements :=
       match spec with
       | Some s => spec_or (backend_requirements s) (_backend_requirements p)
       | None => _backend_requirements p
       end;
     _parameters :=
       match spec with
       | Some s => spec_or (parameters s) (_parameters p)
       | None => _parameters p
       end;
     _return_values :=
       match spec with
       | Some s => spec_or (return_values s) (_return_values p)
       | None => _return_values p
       end;
     _interim_results :=
       match spec with
       | Some s => spec_or (interim_results s) (_interim_results p)
       | None => _interim_results p
       end;
     _is_public := _is_public p |}.

(** [program_update]: the program object is changed in place. *)
Definition program_update (program_id : string)
    (program_data name description : option string)
    (max_execution_time : option Z) (spec : option spec_dict)
    (r : registry) : registry * outcome unit :=
  match dict_get program_id r with
  | None => (r, Raise not_found)
  | Some p =>
      (dict_set program_id
         (updated p program_data name description max_execution_time spec) r,
       Ok tt)
  end.

(** [program_get] *)
Definition program_get (program_id : string) (r : registry)
    : outcome program_dict :=
  match dict_get program_id r with
  | None => Raise not_found
  | Some p => to_dict p true
  end.

(** [program_delete] *)
Definition program_delete (program_id : string) (r : registry)
    : registry * outcome unit :=
  match dict_get program_id r with
  | None => (r, Raise not_found)
  | Some _ => (dict_del program_id r, Ok tt)
  end.

(** [set_program_visibility]: a plain subscript, which raises [KeyError]. *)
Definition set_program_visibility (program_id : string) (public : bool)
    (r : registry) : registry * outcome unit :=
  match dict_get program_id r with
  | None => (r, Raise (KeyError program_id))
  | Some p =>
      (dict_set program_id
         {| _id := _id p; _name := _name p; _data := _data p; _cost := _cost p;
            _description := _description p;
            _backend_requirements := _backend_requirements p;
            _parameters := _parameters p;
            _return_values := _return_values p;
            _interim_results := _interim_results p;
            _is_public := public |} r,
       Ok tt)
  end.

End WithSpec.

Arguments _id {Spec} p.
Arguments _name {Spec} p.
Arguments _data {Spec} p.
Arguments _cost {Spec} p.
Arguments _description {Spec} p.
Arguments _backend_requirements {Spec} p.
Arguments _parameters {Spec} p.
Arguments _return_values {Spec} p.
Arguments _interim_results {Spec} p.
Arguments _is_public {Spec} p.
Arguments backend_requirements {Spec} s.
Arguments parameters {Spec} s.
Arguments return_values {Spec} s.
Arguments interim_results {Spec} s.
Arguments id {Spec} p.
Arguments name {Spec} p.
Arguments cost {Spec} p.
Arguments description {Spec} p.
Arguments is_public {Spec} p.
Arguments creation_date {Spec} p.
Arguments update_date {Spec} p.
Arguments data {Spec} p.
Arguments spec {Spec} p.
Arguments programs {Spec} p.
Arguments count {Spec} p.
Arguments opt_truthy {Spec} spec_truthy x.
Arguments spec_or {Spec} spec_truthy x y.
Arguments spec_entry {Spec} spec_truthy x.
Arguments dict_of {Spec} spec_truthy p data.
Arguments to_dict {Spec} spec_truthy b64decode p include_data.
Arguments list_programs_step {Spec} spec_truthy search programs prog.
Arguments list_programs_loop {Spec} spec_truthy search programs progs.
Arguments list_programs {Spec} spec_truthy search limit skip r.
Arguments program_create {Spec} program_data name description
  max_execution_time spec is_public r.
Arguments updated {Spec} spec_truthy p program_data name description
  max_execution_time spec.
Arguments program_update {Spec} spec_truthy program_id program_data name
  description max_execution_time spec r.
Arguments program_get {Spec} spec_truthy b64decode program_id r.
Arguments program_delete {Spec} program_id r.
Arguments set_program_visibility {Spec} program_id public r.

End FakePrograms.

(** * The primitives and their sessions *)

Module Primitives.

Import Session.

Section WithService.

(** The collaborators of [Session], and three more: the arguments [read()]
    takes by default, [raw_result[key]] on a result, and a dictionary of
    keyword arguments seen as an input value. *)
Variable Value : Type.
Variable Job : Type.
Variable job_id : Job -> string.
Variable Service : Type.
Variable ReadArgs : Type.
Variable run : Service -> RunRequest Value -> Service * outcome Job.
Variable job_result : Service -> Job -> ReadArgs -> Service * outcome Value.
Variable read_defaults : ReadArgs.
Variable getitem : Value -> string -> outcome Value.
Variable of_dict : gmap string Value -> Value.

Record EstimatorResult : Type := {
  values : Value;
  variances : Value
}.

Record SamplerResult : Type := {
  quasi_dists : Value;
  shots : option Value;
  raw_results : option Value;
  metadata : option Value
}.

(** The keyword arguments both sessions write. *)
Definition call_kwargs (parameters : Value) (run_options : gmap string Value)
    : gmap string Value :=
  <["run_options" := of_dict run_options]> {[ "parameters" := parameters ]}.

(** [self.write(parameters=..., run_options=...)] and then [self.read()],
    the first two statements of both [__call__] methods. *)
Definition write_then_read (parameters : Value)
    (run_options : gmap string Value)
    : method Value Job Service Value :=
  fun st =>
    let '(st1, r) := write job_id run (call_kwargs parameters run_options) st in
    match r with
    | Raise e => (st1, Raise e)
    | Ok _ => read job_result read_defaults st1
    end.

(** [EstimatorSession.__call__] *)
Definition EstimatorSession_call (parameters : Value)
    (run_options : gmap string Value)
    : method Value Job Service EstimatorResult :=
  fun st =>
    let '(st', r) := write_then_read parameters run_options st in
    (st',
     raw_result ← r;
     values ← getitem raw_result "values";
     variances ← getitem raw_result "variances";
     Ok {| values := values; variances := variances |}).

(** [SamplerSession.__call__] *)
Definition SamplerSession_call (parameters : Value)
    (run_options : gmap string Value)
    : method Value Job Service SamplerResult :=
  fun st =>
    let '(st', r) := write_then_read parameters run_options st in
    (st',
     raw_result ← r;
     quasi_dists ← getitem raw_result "quasi_dists";
     Ok {| quasi_dists := quasi_dists; shots := None; raw_results := None;
           metadata := None |}).

(** A new dictionary in the heap. *)
Definition new_dict (d : gmap string Value) (w : World Value Job Service)
    : loc * World Value Job Service :=
  let l := fresh (dom (heap w)) in
  (l, {| heap := <[l := d]> (heap w); service := service w; calls := calls w |}).

(** [IBMEstimator.__call__]; [backend] is the primitive's [_backend]. *)
Definition IBMEstimator_call (backend : option string)
    (circuits observables grouping transpile_options : Value)
    (w : World Value Job Service)
    : World Value Job Service * RuntimeSession Job :=
  let inputs : gmap string Value :=
    <["transpile_options" := transpile_options]>
      (<["grouping" := grouping]>
         (<["observables" := observables]> {[ "circuits" := circuits ]})) in
  let '(l, w') := new_dict inputs w in
  (w', EstimatorSession backend l).

(** [IBMSampler.__call__] *)
Definition IBMSampler_call (backend : option string)
    (circuits transpile_options skip_transpilation : Value)
    (w : World Value Job Service)
    : World Value Job Service * RuntimeSession Job :=
  let inputs : gmap string Value :=
    <["skip_transpilation" := skip_transpilation]>
      (<["transpile_options" := transpile_options]> {[ "circuits" := circuits ]}) in
  let '(l, w') := new_dict inputs w in
  (w', SamplerSession backend l).

End WithService.

Arguments values {Value} e.
Arguments variances {Value} e.
Arguments quasi_dists {Value} s.
Arguments shots {Value} s.
Arguments raw_results {Value} s.
Arguments metadata {Value} s.
Arguments call_kwargs {Value} of_dict parameters run_options.
Arguments write_then_read {Value Job} job_id {Service ReadArgs} run job_result
  read_defaults of_dict parameters run_options st.
Arguments EstimatorSession_call {Value Job} job_id {Service ReadArgs} run
  job_result read_defaults getitem of_dict parameters run_options st.
Arguments SamplerSession_call {Value Job} job_id {Service ReadArgs} run
  job_result read_defaults getitem of_dict parameters run_options st.
Arguments new_dict {Value Job Service} d w.
Arguments IBMEstimator_call {Value Job Service} backend circuits observables
  grouping transpile_options w.
Arguments IBMSampler_call {Value Job Service} backend circuits
  transpile_options skip_transpilation w.

End Primitives.

(** * Sequences of assignments to the options *)

Module OptionsUse.

Import Options.

(** A caller that makes the assignments of [kwargs] one after the other and
    stops at the first that raises. *)
Fixpoint assign_all (kwargs : list assignment) (o : EstimatorOptions)
    : outcome EstimatorOptions :=
  match kwargs with
  | [] => Ok o
  | a :: kwargs' => o' ← setattr o a; assign_all kwargs' o'
  end.

(** Both levels, when set, lie in the range of the validators. *)
Definition level_in_range (v : ConfigValue Z) : Prop :=
  match v with
  | Unset => True
  | Value z => (0 ≤ z ≤ 3)%Z
  end.

Definition levels_in_range (o : EstimatorOptions) : Prop :=
  level_in_range (optimization_level o) ∧ level_in_range (resilience_level o).

(** A change to the options: an assignment to a field of the object, or to
    the coupling map of its simulator group. *)
Inductive change : Type :=
| Assign (a : assignment)
| AssignCouplingMap (v : ConfigValue CouplingMap).

Definition apply_change (o : EstimatorOptions) (c : change)
    : outcome EstimatorOptions :=
  match c with
  | Assign a => setattr o a
  | AssignCouplingMap v => set_simulator_coupling_map o v
  end.

(** A caller that makes the changes one after the other and stops at the
    first that raises. *)
Fixpoint change_all (changes : list change) (o : EstimatorOptions)
    : outcome EstimatorOptions :=
  match changes with
  | [] => Ok o
  | c :: changes' => o' ← apply_change o c; change_all changes' o'
  end.

End OptionsUse.

(** * The filters of [jobs_get] as one predicate *)

Module FakeUse.

Import Fake Fake.FakeJob Fake.FakeClient.

(** A job passes the filters given to [jobs_get]: the [pending] flag against
    its stored status, the program identifier when it is truthy, and the
    hub, group and project when all three are truthy. *)
Definition passes (pending : option bool)
    (program_id hub group project : option string) (j : job) : Prop :=
  match pending with
  | Some true => _status j ∈ ["QUEUED"; "RUNNING"]
  | Some false => _status j ∈ ["COMPLETED"; "FAILED"; "CANCELLED"]
  | None => True
  end
  ∧ (if truthy program_id then Some (_program_id j) = program_id else True)
  ∧ (if truthy hub && truthy group && truthy project
     then FakeJob._hub j = hub ∧ FakeJob._group j = group
          ∧ FakeJob._project j = project
     else True).

#[global] Instance passes_dec pending program_id hub group project j :
  Decision (passes pending program_id hub group project j).
Proof.
  unfold passes.
  destruct pending as [[|]|], (truthy program_id),
    (truthy hub && truthy group && truthy project); apply _.
Defined.

(** The statements of a progress task that leave a job pending. *)
Definition keeps_pending (i : instr) : Prop :=
  match i with
  | SetStatus s => s ∈ ["QUEUED"; "RUNNING"]
  | SetResultIf _ _ => True
  | SleepRuntime => True
  end.

(** The statements a future has left to run. *)
Definition code_left (f : option future) : list instr :=
  match f with
  | Some (Pending code) | Some (Running code) => code
  | _ => []
  end.

(** What holds of a cancelable job from its creation on, whether or not it has
    been cancelled: its stored status is QUEUED or RUNNING, it has a future,
    and the statements its task has left cannot change that. *)
Definition stays_pending (j : job) : Prop :=
  cls j = CancelableRuntimeJob
  ∧ _status j ∈ ["QUEUED"; "RUNNING"]
  ∧ is_Some (_future j)
  ∧ Forall keeps_pending (code_left (_future j)).

End FakeUse.

(** * More concrete inputs *)

Module MoreExamples.

Import Fake.

(** Spec values as JSON text, truthy when not empty; and a decoder that
    returns the data as it is, in place of base64. *)
Definition text_truthy (s : string) : bool :=
  if decide (s = "") then false else true.

Definition plain_decode (s : string) : outcome string := Ok s.

Definition sample_spec : FakePrograms.spec_dict string :=
  {| FakePrograms.backend_requirements := Some "{min_qubits: 5}";
     FakePrograms.parameters := Some "";
     FakePrograms.return_values := None;
     FakePrograms.interim_results := None |}.

(** A registry with the programs "sampler" and "estimator". *)
Definition two_programs : FakePrograms.registry string :=
  (FakePrograms.program_create "data-2" "estimator" "Estimate expectation values"
     600 (Some sample_spec) true
     (FakePrograms.program_create "data-1" "sampler" "Sample circuits"
        300 (Some sample_spec) false []).1).1.

(** A client with one job of the default class, and one whose jobs are
    created with the final status FAILED. *)
Definition one_job_client : FakeClient.client :=
  (FakeClient.program_run "job-1" "sampler" Examples.credentials None "{}" None
     Examples.default_client).1.

Definition failed_client : FakeClient.client :=
  FakeClient.__init__ [] (Some "FAILED") None None None None.

(** A service for the session examples: every result is the number 7, and
    every entry of a result is the result itself. *)
Definition constant_result (n : nat) (job : string) (args : unit)
    : nat * outcome Z :=
  (n, Ok 7%Z).

Definition any_entry (raw : Z) (key : string) : outcome Z := Ok raw.

Definition dict_as_value (d : gmap string Z) : Z := Z.of_nat (size d).

(** The session of [Examples], once closed. *)
Definition closed_session : Session.RuntimeSession string :=
  (Session.close (Examples.session, Examples.world)).1.1.

End MoreExamples.

(** * Properties of the session *)

Module SessionProps.

Import Session.

Section WithService.

Context {Value Job Service ReadArgs : Type}.
Variable job_id : Job -> string.
Variable run : Service -> RunRequest Value -> Service * outcome Job.
Variable job_status : Service -> Job -> outcome string.
Variable job_result : Service -> Job -> ReadArgs -> Service * outcome Value.

Implicit Types (s : RuntimeSession Job) (w : World Value Job Service).
Implicit Types (kwargs d : gmap string Value) (ks : list (gmap string Value)).

(** The request a [write] sends, from the contents [d] of the initial inputs. *)
Let request s d kwargs : RunRequest Value :=
  {| req_program_id := _program_id s; req_options := _options s;
     req_inputs := kwargs ∪ d; req_session_id := _session_id s |}.

(** The session after a job came back. *)
Let keep_job s (job : Job) : RuntimeSession Job :=
  match _session_id s with
  | None => set_session_id Job (job_id job) (set_job Job job s)
  | Some _ => set_job Job job s
  end.

(** [write] on an active session, step by step: the copy is a new dictionary,
    the request carries the overlaid inputs and the current session id, and the
    call is recorded. *)
Lemma write_active s w kwargs :
  _active s = true ->
  let d := default ∅ (heap w !! _initial_inputs s) in
  let req := request s d kwargs in
  let w' := {| heap := <[fresh (dom (heap w)) := kwargs ∪ d]> (heap w);
               service := (run (service w) req).1;
               calls := calls w ++ [(req, (run (service w) req).2)] |} in
  write job_id run kwargs (s, w) =
    match (run (service w) req).2 with
    | Ok job => ((keep_job s job, w'), Ok tt)
    | Raise e => ((s, w'), Raise e)
    end.
Proof.
  intros Hact. cbv zeta.
  unfold write, _active_session, write_body, service_run, copy_dict, dict_update.
  cbn [fst]. rewrite Hact. cbn [negb].
  rewrite alter_insert_eq, lookup_insert_eq. cbn [default].
  unfold request, keep_job.
  destruct (run _ _) as [svc [job|e]]; cbn [fst snd]; [|done].
  destruct (_session_id s) eqn:E; cbn; by rewrite ?E.
Qed.

Lemma write_closed s w kwargs :
  _active s = false ->
  write job_id run kwargs (s, w) = ((s, w), Raise closed_error).
Proof. intros H. unfold write, _active_session. cbn [fst]. by rewrite H. Qed.

Lemma read_closed s w (args : ReadArgs) :
  _active s = false ->
  read job_result args (s, w) = ((s, w), Raise closed_error).
Proof. intros H. unfold read, _active_session. cbn [fst]. by rewrite H. Qed.

(** The location [copy.copy] allocates is not that of a live dictionary. *)
Lemma fresh_not_live (h : gmap loc (gmap string Value)) (l : loc) d :
  h !! l = Some d -> fresh (dom h) ≠ l.
Proof.
  intros Hl Heq. apply (is_fresh (dom h)). rewrite Heq.
  by eapply elem_of_dom_2.
Qed.

(** Frame of one [write]: the session keeps its reference to the initial
    inputs, whose contents stay [d]; [_active] is not touched. *)
Lemma write_frame s w kwargs d :
  heap w !! _initial_inputs s = Some d ->
  let st' := (write job_id run kwargs (s, w)).1 in
  _initial_inputs st'.1 = _initial_inputs s
  ∧ heap st'.2 !! _initial_inputs s = Some d
  ∧ _active st'.1 = _active s
  ∧ _program_id st'.1 = _program_id s
  ∧ _options st'.1 = _options s.
Proof.
  intros Hd. cbv zeta. destruct (_active s) eqn:Hact.
  - rewrite write_active by done.
    assert (<[fresh (dom (heap w)) := kwargs ∪ default ∅ (heap w !! _initial_inputs s)]>
              (heap w) !! _initial_inputs s = Some d) as Hh.
    { rewrite lookup_insert_ne; [done|]. by eapply fresh_not_live. }
    destruct (run _ _).2; cbn [fst snd heap]; [|done].
    unfold keep_job. by destruct (_session_id s).
  - by rewrite write_closed.
Qed.

(** What one [write] on an active session leaves: one more recorded call,
    carrying the session id the session had, and the session as it was or with
    the job that came back. *)
Lemma write_step s w kwargs :
  _active s = true ->
  let st' := (write job_id run kwargs (s, w)).1 in
  ∃ req r,
    calls st'.2 = calls w ++ [(req, r)]
    ∧ req_session_id req = _session_id s
    ∧ req_inputs req = kwargs ∪ default ∅ (heap w !! _initial_inputs s)
    ∧ _active st'.1 = true
    ∧ match r with
      | Ok job =>
          _session_id st'.1 = Some (default (job_id job) (_session_id s))
      | Raise _ => _session_id st'.1 = _session_id s
      end.
Proof.
  intros Hact. cbv zeta. rewrite write_active by done.
  set (req := request s _ kwargs). exists req, (run (service w) req).2.
  destruct (run (service w) req).2 as [job|e]; cbn [fst snd calls];
    repeat split; try done.
  - unfold keep_job. by destruct (_session_id s).
  - unfold keep_job. by destruct (_session_id s) eqn:E; cbn; rewrite ?E.
Qed.

Lemma writes_cons ks kwargs (st : RuntimeSession Job * World Value Job Service) :
  writes job_id run (kwargs :: ks) st
  = writes job_id run ks (write job_id run kwargs st).1.
Proof. done. Qed.

Lemma writes_snoc ks kwargs (st : RuntimeSession Job * World Value Job Service) :
  writes job_id run (ks ++ [kwargs]) st
  = (write job_id run kwargs (writes job_id run ks st)).1.
Proof.
  revert st. induction ks as [|k ks IH]; intros st; [done|].
  cbn [app]. by rewrite !writes_cons, IH.
Qed.

(** A sequence of writes keeps the session active and records one call per
    write, the [i]-th with the session id the session had after [i] writes. *)
Lemma writes_calls s w ks :
  _active s = true ->
  let st' := writes job_id run ks (s, w) in
  _active st'.1 = true
  ∧ ∃ evs, calls st'.2 = calls w ++ evs
      ∧ length evs = length ks
      ∧ ∀ i ev, evs !! i = Some ev ->
          req_session_id ev.1
          = _session_id (writes job_id run (take i ks) (s, w)).1.
Proof.
  intros Hact. cbv zeta. induction ks as [|k ks IH] using rev_ind.
  - split; [done|]. exists []. rewrite app_nil_r. by repeat split.
  - rewrite writes_snoc. destruct IH as (Hact' & evs & Hc & Hlen & Hi).
    destruct (writes job_id run ks (s, w)) as [s1 w1] eqn:Hw.
    cbn [fst snd] in *.
    destruct (write_step s1 w1 k Hact') as (req & r & Hc' & Hsid & _ & Ha & _).
    split; [done|]. exists (evs ++ [(req, r)]).
    rewrite Hc', Hc, <-(assoc_L (++)). split; [done|].
    rewrite !length_app, Hlen. split; [done|].
    intros i ev Hev. destruct (decide (i < length evs)) as [Hlt|Hge].
    + rewrite lookup_app_l in Hev by done.
      rewrite take_app_le by lia. by apply Hi.
    + rewrite lookup_app_r in Hev by lia.
      assert (i = length evs) as ->.
      { apply lookup_lt_Some in Hev. cbn in Hev. lia. }
      rewrite Nat.sub_diag in Hev. injection Hev as <-.
      rewrite Hlen, take_app_length, Hw. done.
Qed.

(** Once the session has an id, every later write sends it and keeps it. *)
Lemma writes_with_session_id s w ks sid evs :
  _active s = true ->
  _session_id s = Some sid ->
  let st' := writes job_id run ks (s, w) in
  calls st'.2 = calls w ++ evs ->
  _session_id st'.1 = Some sid
  ∧ Forall (fun ev => req_session_id ev.1 = Some sid) evs.
Proof.
  cbv zeta. revert s w evs. induction ks as [|k ks IH]; intros s w evs Hact Hsid Hc.
  - cbn in *. split; [done|].
    rewrite <-(app_nil_r (calls w)) in Hc at 1. apply app_inv_head in Hc.
    by subst.
  - rewrite writes_cons in *.
    destruct (write_step s w k Hact) as (req & r & Hc' & Hr & _ & Ha & Hs).
    destruct (write job_id run k (s, w)).1 as [s1 w1]. cbn [fst snd] in *.
    assert (_session_id s1 = Some sid) as Hsid1.
    { destruct r; rewrite Hs, ?Hsid; done. }
    destruct (writes_calls s1 w1 ks Ha) as (_ & evs' & Hc1 & _).
    cbv zeta in Hc1.
    assert (evs = (req, r) :: evs') as ->.
    { rewrite Hc1, Hc', <-(assoc_L (++)) in Hc. by apply app_inv_head in Hc. }
    destruct (IH s1 w1 evs' Ha Hsid1 Hc1) as [Hfin Hall].
    split; [done|]. constructor; [|done]. cbn. by rewrite Hr.
Qed.

(** From a session without an id: the writes up to the first job that comes
    back carry no id; that job's identifier is the id of every later write. *)
Lemma writes_from_no_session_id s w ks evs :
  _active s = true ->
  _session_id s = None ->
  let st' := writes job_id run ks (s, w) in
  calls st'.2 = calls w ++ evs ->
  match submitted evs with
  | [] =>
      _session_id st'.1 = None
      ∧ Forall (fun ev => req_session_id ev.1 = None) evs
  | (r1, j1) :: rest =>
      req_session_id r1 = None
      ∧ Forall (fun rj => req_session_id rj.1 = Some (job_id j1)) rest
      ∧ _session_id st'.1 = Some (job_id j1)
  end.
Proof.
  cbv zeta. revert s w evs. induction ks as [|k ks IH]; intros s w evs Hact Hsid Hc.
  - cbn in *.
    rewrite <-(app_nil_r (calls w)) in Hc at 1. apply app_inv_head in Hc.
    by subst.
  - rewrite writes_cons in *.
    destruct (write_step s w k Hact) as (req & r & Hc' & Hr & _ & Ha & Hs).
    destruct (write job_id run k (s, w)).1 as [s1 w1]. cbn [fst snd] in *.
    destruct (writes_calls s1 w1 ks Ha) as (_ & evs' & Hc1 & _).
    cbv zeta in Hc1.
    assert (evs = (req, r) :: evs') as ->.
    { rewrite Hc1, Hc', <-(assoc_L (++)) in Hc. by apply app_inv_head in Hc. }
    destruct r as [job|e]; cbn [submitted omap list_omap snd fst].
    + rewrite Hsid in Hs. cbn in Hs.
      destruct (writes_with_session_id s1 w1 ks _ evs' Ha Hs Hc1) as [Hfin Hall].
      rewrite Hr, Hsid. repeat split; [|done].
      clear -Hall. induction Hall as [|[r' [j'|e']] evs' Hx _ IH']; cbn; [done| |done].
      constructor; done.
    + rewrite Hsid in Hs.
      specialize (IH s1 w1 evs' Ha Hs Hc1). fold (submitted evs').
      destruct (submitted evs') as [|[r1 j1] rest].
      * destruct IH as [? ?]. split; [done|]. constructor; [|done].
        cbn. by rewrite Hr.
      * done.
Qed.

(** C10: [write] never mutates the session's initial inputs.  Over any
    sequence of writes on an active session whose initial inputs hold [d], the
    session keeps its reference to them, their contents are still [d] after the
    last write, and the inputs submitted by each write are [d] overlaid with
    the keyword arguments of that write alone. *)
Theorem write_never_mutates_initial_inputs s w ks d :
  _active s = true ->
  heap w !! _initial_inputs s = Some d ->
  let st' := writes job_id run ks (s, w) in
  _initial_inputs st'.1 = _initial_inputs s
  ∧ heap st'.2 !! _initial_inputs s = Some d
  ∧ ∃ evs, calls st'.2 = calls w ++ evs
      ∧ (fun ev => req_inputs ev.1) <$> evs = (fun kwargs => kwargs ∪ d) <$> ks.
Proof.
  cbv zeta. revert s w. induction ks as [|k ks IH]; intros s w Hact Hd.
  - cbn. repeat split; [done|]. exists []. by rewrite app_nil_r.
  - rewrite writes_cons.
    destruct (write_frame s w k d Hd) as (Hi & Hh & Ha & _).
    destruct (write_step s w k Hact) as (req & r & Hc & _ & Hin & _).
    destruct (write job_id run k (s, w)).1 as [s1 w1]. cbn [fst snd] in *.
    rewrite Hd in Hin. cbn in Hin.
    rewrite <-Hi in Hh. rewrite Hact in Ha.
    destruct (IH s1 w1 Ha Hh) as (Hi' & Hh' & evs & Hc' & Hins).
    rewrite Hi' , <-Hi. repeat split; [by rewrite <-Hh', Hi|].
    exists ((req, r) :: evs). rewrite Hc', Hc, <-(assoc_L (++)).
    split; [done|]. cbn. by rewrite Hin, Hins.
Qed.

(** One [write] on an active session calls [run] once, on the service as it
    is, with the program, the options and the session id of the session: the
    recorded outcome is what [run] returned, the new service is the one [run]
    left, and the job that came back, if any, is the job of the session. *)
Lemma write_run s w kwargs :
  _active s = true ->
  let st' := (write job_id run kwargs (s, w)).1 in
  ∃ req,
    calls st'.2 = calls w ++ [(req, (run (service w) req).2)]
    ∧ service st'.2 = (run (service w) req).1
    ∧ req_program_id req = _program_id s
    ∧ req_options req = _options s
    ∧ _program_id st'.1 = _program_id s
    ∧ _options st'.1 = _options s
    ∧ _job st'.1 = match (run (service w) req).2 with
                   | Ok job => Some job
                   | Raise _ => _job s
                   end.
Proof.
  intros Hact. cbv zeta. rewrite write_active by done.
  set (req := request s _ kwargs). exists req.
  destruct (run (service w) req).2 as [job|e]; cbn [fst snd calls service];
    repeat split; try done; unfold keep_job; by destruct (_session_id s).
Qed.

Lemma submitted_app (evs1 evs2 : list (RunRequest Value * outcome Job)) :
  submitted (evs1 ++ evs2) = submitted evs1 ++ submitted evs2.
Proof. apply omap_app. Qed.

(** Over a sequence of writes, the [i]-th recorded call is the call of [run]
    the [i]-th write made, on the service the writes before it left, and the
    session holds the job of the last write that [run] accepted. *)
Lemma writes_run s w ks evs :
  _active s = true ->
  let st' := writes job_id run ks (s, w) in
  calls st'.2 = calls w ++ evs ->
  _program_id st'.1 = _program_id s
  ∧ _options st'.1 = _options s
  ∧ _job st'.1 = match last (submitted evs) with
                 | Some rj => Some rj.2
                 | None => _job s
                 end
  ∧ ∀ i ev, evs !! i = Some ev ->
      let before := writes job_id run (take i ks) (s, w) in
      let after := writes job_id run (take (S i) ks) (s, w) in
      req_program_id ev.1 = _program_id s
      ∧ req_options ev.1 = _options s
      ∧ ev.2 = (run (service before.2) ev.1).2
      ∧ service after.2 = (run (service before.2) ev.1).1.
Proof.
  intros Hact. cbv zeta. revert evs.
  induction ks as [|k ks IH] using rev_ind; intros evs Hc.
  - cbn in Hc. rewrite <-(app_nil_r (calls w)) in Hc at 1.
    apply app_inv_head in Hc. subst evs. by repeat split.
  - destruct (writes_calls s w ks Hact) as (Hact' & evs0 & Hc0 & Hlen0 & _).
    cbv zeta in Hact', Hc0.
    destruct (IH evs0 Hc0) as (Hp & Ho & Hj & Hi). clear IH.
    rewrite writes_snoc in *.
    destruct (writes job_id run ks (s, w)) as [s1 w1] eqn:Hw.
    cbn [fst snd] in Hact', Hc0, Hp, Ho, Hj.
    destruct (write_run s1 w1 k Hact') as (req & Hc1 & Hsvc & Hrp & Hro & Hp1 & Ho1 & Hj1).
    cbv zeta in Hc1, Hsvc, Hp1, Ho1, Hj1.
    assert (evs = evs0 ++ [(req, (run (service w1) req).2)]) as ->.
    { rewrite Hc1, Hc0, <-(assoc_L (++)) in Hc. by apply app_inv_head in Hc. }
    split; [congruence|]. split; [congruence|]. split.
    + rewrite Hj1, submitted_app. cbn [submitted omap list_omap snd fst].
      destruct (run (service w1) req).2 as [job|e].
      * by rewrite last_snoc.
      * by rewrite app_nil_r.
    + intros i ev Hev. destruct (decide (i < length evs0)) as [Hlt|Hge].
      * rewrite lookup_app_l in Hev by done.
        rewrite !take_app_le by lia. by apply Hi.
      * rewrite lookup_app_r in Hev by lia.
        assert (i = length evs0) as ->.
        { apply lookup_lt_Some in Hev. cbn in Hev. lia. }
        rewrite Nat.sub_diag in Hev. injection Hev as <-.
        rewrite Hlen0, take_app_length.
        rewrite (take_ge (ks ++ [k])) by (rewrite length_app; cbn; lia).
        rewrite writes_snoc, Hw. cbn [fst snd].
        repeat split; congruence.
Qed.

(** C1: over any sequence of writes on a new session, each write calls [run]
    once, on the service the writes before it left, with the program and the
    options of the session and the session id the session holds at that
    moment; what is recorded is what [run] returned, and the session holds the
    job of the last write that [run] accepted.  No write carries an id until a
    job comes back; from then on the session id is that first job's
    identifier, sent by every later write and never changed, so that all the
    jobs belong to the session named after the first one. *)
Theorem writes_share_session_id program_id inputs options w ks :
  let s0 : RuntimeSession Job := __init__ program_id inputs options in
  let st' := writes job_id run ks (s0, w) in
  ∃ evs, calls st'.2 = calls w ++ evs
    ∧ length evs = length ks
    ∧ (∀ i ev, evs !! i = Some ev ->
         let before := writes job_id run (take i ks) (s0, w) in
         let after := writes job_id run (take (S i) ks) (s0, w) in
         req_session_id ev.1 = _session_id before.1
         ∧ req_program_id ev.1 = program_id
         ∧ req_options ev.1 = options
         ∧ ev.2 = (run (service before.2) ev.1).2
         ∧ service after.2 = (run (service before.2) ev.1).1)
    ∧ _job st'.1 = snd <$> last (submitted evs)
    ∧ match submitted evs with
      | [] =>
          _session_id st'.1 = None
          ∧ Forall (fun ev => req_session_id ev.1 = None) evs
      | (r1, j1) :: rest =>
          req_session_id r1 = None
          ∧ Forall (fun rj => req_session_id rj.1 = Some (job_id j1)) rest
          ∧ _session_id st'.1 = Some (job_id j1)
          ∧ Forall (fun rj => session_of job_id rj = job_id j1) ((r1, j1) :: rest)
      end.
Proof.
  cbv zeta.
  destruct (writes_calls (__init__ program_id inputs options) w ks eq_refl)
    as (_ & evs & Hc & Hlen & Hi).
  destruct (writes_run (__init__ program_id inputs options) w ks evs eq_refl Hc)
    as (_ & _ & Hjob & Hrun).
  exists evs. split; [done|]. split; [done|]. split; [|split].
  - intros i ev Hev. destruct (Hrun i ev Hev) as (? & ? & ? & ?).
    split; [by apply Hi|]. by repeat split.
  - rewrite Hjob. by destruct (last (submitted evs)).
  - pose proof (writes_from_no_session_id
                  (__init__ program_id inputs options) w ks evs eq_refl eq_refl Hc) as H.
    cbv zeta in H. destruct (submitted evs) as [|[r1 j1] rest]; [done|].
    destruct H as (H1 & Hrest & Hfin). repeat split; [done..|].
    constructor.
    + unfold session_of. cbn. by rewrite H1.
    + eapply Forall_impl; [exact Hrest|]. intros [r j] Hrj.
      unfold session_of. cbn in *. by rewrite Hrj.
Qed.

(** [info] leaves the session and the world as they are. *)
Lemma info_pure s w : (info job_id job_status (s, w)).1 = (s, w).
Proof. done. Qed.

(** On a closed session no call changes the world or reopens the session, and
    [write] and [read] raise the closed-session error. *)
Lemma do_call_closed s w (c : call Value ReadArgs) :
  _active s = false ->
  let '(st', e) := do_call job_id run job_status job_result c (s, w) in
  _active st'.1 = false ∧ _job st'.1 = _job s ∧ st'.2 = w
  ∧ (guarded c = true -> e = Some closed_error).
Proof.
  intros Hact. destruct c as [kwargs|args| | |]; cbn [do_call].
  - by rewrite write_closed.
  - by rewrite read_closed.
  - pose proof (info_pure s w) as H.
    destruct (info job_id job_status (s, w)) as [st' r]. cbn in H. by subst.
  - done.
  - done.
Qed.

(** C3: once [close] has been called, or a [with] block has been left, every
    later call of [write] or [read] raises the closed-session error, whatever
    job the session holds and whatever other calls come in between, and the
    world is left as it was: nothing is submitted after closure. *)
Theorem closed_session_rejects s w (cs : list (call Value ReadArgs)) :
  let closed := (close (s, w)).1 in
  let exited := (__exit__ (s, w)).1 in
  let '(st', es) := do_calls job_id run job_status job_result cs closed in
  closed = exited
  ∧ _active closed.1 = false
  ∧ _job closed.1 = _job s
  ∧ closed.2 = w
  ∧ st'.2 = w
  ∧ _active st'.1 = false
  ∧ length es = length cs
  ∧ ∀ i c, cs !! i = Some c -> guarded c = true ->
      es !! i = Some (Some closed_error).
Proof.
  cbv zeta. cbn [close __exit__ fst snd].
  assert (_active (set_active Job false s) = false) as Hact by done.
  assert (_job (set_active Job false s) = _job s) as Hjob by done.
  revert Hact Hjob. generalize (set_active Job false s) as s1.
  induction cs as [|c cs IH]; intros s1 Hact Hjob.
  - cbn. repeat split; try done.
  - cbn [do_calls].
    pose proof (do_call_closed s1 w c Hact) as Hc.
    destruct (do_call job_id run job_status job_result c (s1, w)) as [[s2 w2] e].
    cbn [fst snd] in Hc. destruct Hc as (Hact2 & Hjob2 & -> & Hg).
    specialize (IH s2 Hact2).
    destruct (do_calls job_id run job_status job_result cs (s2, w)) as [st' es].
    destruct IH as (_ & _ & _ & _ & Hw & Ha & Hlen & Hi); [congruence|].
    repeat split; try done.
    + cbn. by rewrite Hlen.
    + intros [|i] c' Hl Hgc; cbn in *.
      * injection Hl as <-. by rewrite Hg.
      * by eapply Hi.
Qed.

(** With a [RuntimeOptions] object, [info] returns the backend name, and the
    identifier and status of the job when there is one. *)
Lemma info_with_options_object s w (o : RuntimeOptions) :
  _options s = OptObject o ->
  (info job_id job_status (s, w)).2 =
    match _job s with
    | None => Ok {[ "backend" := str_or (backend_name o) "unknown" ]}
    | Some job =>
        status ← job_status (service w) job;
        Ok (<[ "job status" := status ]>
              (<[ "job id" := job_id job ]>
                 {[ "backend" := str_or (backend_name o) "unknown" ]}))
    end.
Proof. intros H. cbn. rewrite H. cbn. by destruct (_job s). Qed.

(** C9, at the sessions the primitives return: their options are a plain
    dictionary, and [info] raises [AttributeError] on its first line; the same
    happens with the default [options=None]. *)
Theorem info_fails_on_primitive_sessions (backend : option string) (inputs : loc) w :
  info job_id job_status (SamplerSession backend inputs, w)
  = ((SamplerSession backend inputs, w), Raise (AttributeError "dict" "backend_name"))
  ∧ info job_id job_status (EstimatorSession backend inputs, w)
    = ((EstimatorSession backend inputs, w), Raise (AttributeError "dict" "backend_name"))
  ∧ info job_id job_status (__init__ "program" inputs OptNone, w)
    = ((__init__ "program" inputs OptNone, w),
       Raise (AttributeError "NoneType" "backend_name")).
Proof. by repeat split. Qed.

End WithService.

(** The frame of [write] on two writes over [{"shots": 10}]. *)
Lemma write_never_mutates_initial_inputs_witness :
  let s := Examples.session in
  let w := Examples.world in
  let st' := writes Examples.job_name Examples.counting_run Examples.two_writes (s, w) in
  _active s = true
  ∧ heap w !! _initial_inputs s = Some Examples.initial_inputs
  ∧ _initial_inputs st'.1 = _initial_inputs s
  ∧ heap st'.2 !! _initial_inputs s = Some Examples.initial_inputs
  ∧ ∃ evs, calls st'.2 = calls w ++ evs
      ∧ (fun ev => req_inputs ev.1) <$> evs
        = (fun kwargs => kwargs ∪ Examples.initial_inputs) <$> Examples.two_writes.
Proof.
  cbv zeta. split; [reflexivity|]. split; [reflexivity|].
  apply (write_never_mutates_initial_inputs Examples.job_name Examples.counting_run
           Examples.session Examples.world Examples.two_writes
           Examples.initial_inputs); reflexivity.
Defined.

End SessionProps.

(** * Properties of the estimator options *)

Module OptionsProps.

Import Options.

Implicit Types (o : EstimatorOptions) (a : assignment) (z : Z).

Lemma range_accepts z :
  (0 ≤ z ≤ 3)%Z ->
  _validate_optimization_level (Value z) = Ok (Value z)
  ∧ _validate_resilience_level (Value z) = Ok (Value z).
Proof.
  intros [H0 H3].
  unfold _validate_optimization_level, _validate_resilience_level,
    skip_unset_validation, _validate_optimization_level_body,
    _validate_resilience_level_body, _MAX_RESILIENCE_LEVEL.
  apply Z.leb_le in H0, H3. by rewrite H0, H3.
Qed.

Lemma range_rejects z :
  ¬ (0 ≤ z ≤ 3)%Z ->
  _validate_optimization_level (Value z) = Raise (ValueError range_message)
  ∧ _validate_resilience_level (Value z) = Raise (ValueError range_message).
Proof.
  intros Hn.
  unfold _validate_optimization_level, _validate_resilience_level,
    skip_unset_validation, _validate_optimization_level_body,
    _validate_resilience_level_body, _MAX_RESILIENCE_LEVEL.
  destruct (0 <=? z)%Z eqn:H0; [|done].
  destruct (z <=? 3)%Z eqn:H3; [|done].
  apply Z.leb_le in H0, H3. lia.
Qed.

(** A field validator returns the value it was given, or raises the range
    error. *)
Lemma validate_field_cases a :
  validate_field a = Ok a ∨ validate_field a = Raise (ValueError range_message).
Proof.
  destruct a as [b|[|z]|[|z]|v|g]; try (by left).
  - destruct (decide (0 ≤ z ≤ 3)%Z) as [Hz|Hz]; cbn [validate_field].
    + left. by rewrite (proj1 (range_accepts z Hz)).
    + right. by rewrite (proj1 (range_rejects z Hz)).
  - destruct (decide (0 ≤ z ≤ 3)%Z) as [Hz|Hz]; cbn [validate_field].
    + left. by rewrite (proj2 (range_accepts z Hz)).
    + right. by rewrite (proj2 (range_rejects z Hz)).
Qed.

Lemma mapM_validate_field_cases (kwargs : list assignment) :
  mapM validate_field kwargs = Ok kwargs
  ∨ mapM validate_field kwargs = Raise (ValueError range_message).
Proof.
  induction kwargs as [|a kwargs IH]; [by left|].
  cbn [mapM]. destruct (validate_field_cases a) as [-> | ->]; [|by right].
  cbn. destruct IH as [-> | ->]; [by left|by right].
Qed.

(** An assignment that returns has stored the value and passed the model
    validator. *)
Lemma setattr_ok o a o' :
  setattr o a = Ok o' -> o' = store o a ∧ coupling_map_missing o' = false.
Proof.
  unfold setattr. destruct (validate_field_cases a) as [-> | ->]; [|done].
  cbn. unfold _validate_options.
  destruct (coupling_map_missing (store o a)) eqn:E; [done|].
  intros [= <-]. done.
Qed.

(** An assignment after which the rule would be broken raises. *)
Lemma setattr_missing o a :
  coupling_map_missing (store o a) = true ->
  ∃ msg, setattr o a = Raise (ValueError msg).
Proof.
  intros Hm. unfold setattr.
  destruct (validate_field_cases a) as [-> | ->]; [|by eexists].
  cbn. unfold _validate_options. rewrite Hm. by eexists.
Qed.

(** An assignment of a value its field validator accepts, after which the rule
    holds, returns with the value stored. *)
Lemma setattr_valid o a :
  validate_field a = Ok a ->
  coupling_map_missing (store o a) = false ->
  setattr o a = Ok (store o a).
Proof.
  intros Hv Hm. unfold setattr. rewrite Hv. cbn.
  unfold _validate_options. by rewrite Hm.
Qed.

(** C2: with the simulator flag set and no coupling map, constructing the
    options with [resilience_level == 3] raises, and so does assigning
    [resilience_level = 3]; once a coupling map has been set in the simulator
    group, the same assignment returns with the level stored. *)
Theorem resilience_level_3_needs_coupling_map
    o (kwargs : list assignment) (cm : CouplingMap) :
  _is_simulator o = true ->
  coupling_map (simulator o) = Unset ->
  resilience_level (foldl store defaults kwargs) = Value 3%Z ->
  _is_simulator (foldl store defaults kwargs) = true ->
  coupling_map (simulator (foldl store defaults kwargs)) = Unset ->
  (∃ msg, __init__ kwargs = Raise (ValueError msg))
  ∧ setattr o (Set_resilience_level (Value 3%Z))
    = Raise (ValueError coupling_map_message)
  ∧ ∃ o1, set_simulator_coupling_map o (Value cm) = Ok o1
      ∧ _is_simulator o1 = true
      ∧ setattr o1 (Set_resilience_level (Value 3%Z))
        = Ok (store o1 (Set_resilience_level (Value 3%Z)))
      ∧ resilience_level (store o1 (Set_resilience_level (Value 3%Z))) = Value 3%Z.
Proof.
  intros Hsim Hcm Hk3 Hksim Hkcm. repeat split.
  - unfold __init__.
    destruct (mapM_validate_field_cases kwargs) as [-> | ->]; [|by eexists].
    cbn. unfold _validate_options, coupling_map_missing.
    rewrite Hk3, Hksim, Hkcm. by eexists.
  - unfold setattr. cbn. unfold _validate_options, coupling_map_missing.
    cbn. by rewrite Hsim, Hcm.
  - assert (∀ o', coupling_map (simulator o') = Value cm ->
                  coupling_map_missing o' = false) as Hok.
    { intros o' H. unfold coupling_map_missing. rewrite H. cbn.
      by rewrite andb_false_r. }
    exists (store o (Set_simulator {| coupling_map := Value cm |})).
    split.
    { unfold set_simulator_coupling_map, _validate_options. by rewrite Hok. }
    split; [done|]. split; [|done].
    unfold setattr. cbn. unfold _validate_options. by rewrite Hok.
Qed.

(** C6: whenever a field that the resilience_level/coupling-map rule reads is
    assigned - a field of the options object itself (the level, the simulator
    flag, the simulator group) or the coupling map inside the simulator group
    - the rule runs on the options with the new value stored, and the
    assignment raises when the rule is broken there.  So setting the simulator
    flag alone on options with [resilience_level == 3] and no coupling map
    raises, and so does unsetting the coupling map of options flagged for a
    simulator at level 3.  An assignment that returns has passed the rule. *)
Theorem flag_change_revalidates o :
  resilience_level o = Value 3%Z ->
  coupling_map (simulator o) = Unset ->
  setattr o (Set_is_simulator true) = Raise (ValueError coupling_map_message)
  ∧ (∀ o' a, coupling_map_missing (store o' a) = true ->
       ∃ msg, setattr o' a = Raise (ValueError msg))
  ∧ (∀ o' a o'', setattr o' a = Ok o'' ->
       o'' = store o' a ∧ coupling_map_missing o'' = false)
  ∧ (∀ o' v,
       coupling_map_missing (store o' (Set_simulator {| coupling_map := v |})) = true ->
       set_simulator_coupling_map o' v = Raise (ValueError coupling_map_message))
  ∧ (∀ o' v o'', set_simulator_coupling_map o' v = Ok o'' ->
       o'' = store o' (Set_simulator {| coupling_map := v |})
       ∧ coupling_map_missing o'' = false)
  ∧ (∀ o', resilience_level o' = Value 3%Z -> _is_simulator o' = true ->
       set_simulator_coupling_map o' Unset
       = Raise (ValueError coupling_map_message)).
Proof.
  intros H3 Hcm. split; [|split; [|split; [|split; [|split]]]].
  - unfold setattr. cbn. unfold _validate_options, coupling_map_missing.
    cbn. by rewrite H3, Hcm.
  - apply setattr_missing.
  - apply setattr_ok.
  - intros o' v Hm. unfold set_simulator_coupling_map, _validate_options.
    by rewrite Hm.
  - intros o' v o''. unfold set_simulator_coupling_map, _validate_options.
    destruct (coupling_map_missing _) eqn:E; [done|]. by intros [= <-].
  - intros o' H3' Hsim. unfold set_simulator_coupling_map, _validate_options,
      coupling_map_missing. cbn. by rewrite H3', Hsim.
Qed.

(** C7, as the code has it.  For [optimization_level] and [resilience_level]:
    an integer in [0, 3] passes the range validator, and the assignment returns
    with the value stored when the updated object passes the model validator;
    an integer outside [0, 3] raises the range error; on [Unset] the decorator
    returns without calling the validator it wraps, whatever that validator is,
    and the assignment returns when the updated object passes the model
    validator. *)
Theorem level_assignment o (level : ConfigValue Z -> assignment) z :
  level = Set_optimization_level ∨ level = Set_resilience_level ->
  ((0 ≤ z ≤ 3)%Z ->
     validate_field (level (Value z)) = Ok (level (Value z))
     ∧ (coupling_map_missing (store o (level (Value z))) = false ->
        setattr o (level (Value z)) = Ok (store o (level (Value z)))))
  ∧ (¬ (0 ≤ z ≤ 3)%Z ->
     setattr o (level (Value z)) = Raise (ValueError range_message))
  ∧ (∀ func : Z -> outcome Z, skip_unset_validation func Unset = Ok Unset)
  ∧ validate_field (level Unset) = Ok (level Unset)
  ∧ (coupling_map_missing (store o (level Unset)) = false ->
     setattr o (level Unset) = Ok (store o (level Unset)))
  ∧ (∀ v, optimization_level (store o (Set_optimization_level v)) = v
          ∧ resilience_level (store o (Set_resilience_level v)) = v).
Proof.
  intros Hlevel.
  assert (validate_field (level Unset) = Ok (level Unset)) as HU.
  { by destruct Hlevel as [-> | ->]. }
  assert ((0 ≤ z ≤ 3)%Z -> validate_field (level (Value z)) = Ok (level (Value z)))
    as HV.
  { intros Hz. destruct (range_accepts z Hz) as [Ho Hr].
    destruct Hlevel as [-> | ->]; cbn [validate_field]; by rewrite ?Ho, ?Hr. }
  split; [|split; [|split; [|split; [|split]]]].
  - intros Hz. split; [by apply HV|]. intros Hm. by apply setattr_valid; [apply HV|].
  - intros Hz. destruct (range_rejects z Hz) as [Ho Hr]. unfold setattr.
    destruct Hlevel as [-> | ->]; cbn [validate_field]; by rewrite ?Ho, ?Hr.
  - done.
  - done.
  - intros Hm. by apply setattr_valid.
  - done.
Qed.

(** C7, counterexample: on options flagged for a simulator, without a coupling
    map, the assignment [resilience_level = 3] raises although 3 lies in
    [0, 3]. *)
Lemma level_3_rejected_on_simulator :
  ∃ o, setattr defaults (Set_is_simulator true) = Ok o
    ∧ (0 ≤ 3 ≤ 3)%Z
    ∧ setattr o (Set_resilience_level (Value 3%Z))
      = Raise (ValueError coupling_map_message).
Proof. eexists. split; [reflexivity|]. split; [lia|reflexivity]. Qed.

Lemma resilience_level_3_needs_coupling_map_witness :
  let o := Examples.simulator_options in
  let kwargs := [Set_is_simulator true; Set_resilience_level (Value 3%Z)] in
  let cm := Examples.line_coupling_map in
  (_is_simulator o = true
   ∧ coupling_map (simulator o) = Unset
   ∧ resilience_level (foldl store defaults kwargs) = Value 3%Z
   ∧ _is_simulator (foldl store defaults kwargs) = true
   ∧ coupling_map (simulator (foldl store defaults kwargs)) = Unset)
  ∧ (∃ msg, __init__ kwargs = Raise (ValueError msg))
  ∧ setattr o (Set_resilience_level (Value 3%Z))
    = Raise (ValueError coupling_map_message)
  ∧ ∃ o1, set_simulator_coupling_map o (Value cm) = Ok o1
      ∧ _is_simulator o1 = true
      ∧ setattr o1 (Set_resilience_level (Value 3%Z))
        = Ok (store o1 (Set_resilience_level (Value 3%Z)))
      ∧ resilience_level (store o1 (Set_resilience_level (Value 3%Z))) = Value 3%Z.
Proof.
  cbv zeta. split; [repeat split|].
  apply (resilience_level_3_needs_coupling_map Examples.simulator_options
           [Set_is_simulator true; Set_resilience_level (Value 3%Z)]
           Examples.line_coupling_map); reflexivity.
Defined.

Lemma flag_change_revalidates_witness :
  let o := Examples.level_3_options in
  (resilience_level o = Value 3%Z ∧ coupling_map (simulator o) = Unset)
  ∧ setattr o (Set_is_simulator true) = Raise (ValueError coupling_map_message)
  ∧ (∀ o' a, coupling_map_missing (store o' a) = true ->
       ∃ msg, setattr o' a = Raise (ValueError msg))
  ∧ (∀ o' a o'', setattr o' a = Ok o'' ->
       o'' = store o' a ∧ coupling_map_missing o'' = false)
  ∧ (∀ o' v,
       coupling_map_missing (store o' (Set_simulator {| coupling_map := v |})) = true ->
       set_simulator_coupling_map o' v = Raise (ValueError coupling_map_message))
  ∧ (∀ o' v o'', set_simulator_coupling_map o' v = Ok o'' ->
       o'' = store o' (Set_simulator {| coupling_map := v |})
       ∧ coupling_map_missing o'' = false)
  ∧ (∀ o', resilience_level o' = Value 3%Z -> _is_simulator o' = true ->
       set_simulator_coupling_map o' Unset
       = Raise (ValueError coupling_map_message)).
Proof.
  cbv zeta. split; [split; reflexivity|].
  apply (flag_change_revalidates Examples.level_3_options); reflexivity.
Defined.

Lemma level_assignment_witness :
  let o := Examples.simulator_options in
  let level := Set_resilience_level in
  let z := 2%Z in
  (level = Set_optimization_level ∨ level = Set_resilience_level)
  ∧ ((0 ≤ z ≤ 3)%Z ->
       validate_field (level (Value z)) = Ok (level (Value z))
       ∧ (coupling_map_missing (store o (level (Value z))) = false ->
          setattr o (level (Value z)) = Ok (store o (level (Value z)))))
  ∧ (¬ (0 ≤ z ≤ 3)%Z ->
     setattr o (level (Value z)) = Raise (ValueError range_message))
  ∧ (∀ func : Z -> outcome Z, skip_unset_validation func Unset = Ok Unset)
  ∧ validate_field (level Unset) = Ok (level Unset)
  ∧ (coupling_map_missing (store o (level Unset)) = false ->
     setattr o (level Unset) = Ok (store o (level Unset)))
  ∧ (∀ v, optimization_level (store o (Set_optimization_level v)) = v
          ∧ resilience_level (store o (Set_resilience_level v)) = v).
Proof.
  cbv zeta. split; [right; reflexivity|].
  apply (level_assignment Examples.simulator_options Set_resilience_level 2%Z).
  right; reflexivity.
Defined.

End OptionsProps.

(** * Properties of the fake runtime client *)

Module FakeProps.

Import Fake Fake.FakeJob Fake.FakeClient.

Implicit Types (j : job) (c : client) (n : nat).

(** ** Dictionaries *)

Lemma dict_get_set_eq {V} (k : string) (v : V) d :
  dict_get k (dict_set k v d) = Some v.
Proof.
  unfold dict_get. induction d as [|[k' v'] d IH]; cbn.
  - by rewrite bool_decide_eq_true_2.
  - destruct (decide (k' = k)) as [->|Hne]; cbn.
    + by rewrite bool_decide_eq_true_2.
    + by rewrite bool_decide_eq_false_2.
Qed.

Lemma dict_get_set_ne {V} (k k' : string) (v : V) d :
  k ≠ k' -> dict_get k' (dict_set k v d) = dict_get k' d.
Proof.
  intros Hne. unfold dict_get. induction d as [|[k0 v0] d IH]; cbn.
  - by rewrite bool_decide_eq_false_2.
  - destruct (decide (k0 = k)) as [->|Hne0]; cbn.
    + by rewrite !bool_decide_eq_false_2.
    + destruct (bool_decide (k0 = k')); [done|]. apply IH.
Qed.

(** ** The progress task *)

Lemma progress_stuck n j : step j = None -> progress n j = j.
Proof. intros H. destruct n; [done|]. cbn. by rewrite H. Qed.

Lemma progress_add n m j : progress (n + m) j = progress m (progress n j).
Proof.
  revert j. induction n as [|n IH]; intros j; [done|].
  cbn. destruct (step j) as [j'|] eqn:E; [apply IH|].
  by rewrite progress_stuck.
Qed.

Lemma progress_S n j :
  progress (S n) j = default (progress n j) (step (progress n j)).
Proof.
  replace (S n) with (n + 1) by lia. rewrite progress_add. cbn.
  by destruct (step (progress n j)).
Qed.

(** A step of the task leaves the class and the cancellation mark alone. *)
Lemma step_keeps j j' :
  step j = Some j' -> cls j' = cls j ∧ _cancelled j' = _cancelled j.
Proof.
  unfold step. destruct (_future j) as [[code|[|i code]| |]|];
    try destruct (raises i j); intros [= <-]; try done.
  destruct i as [s|s payload|]; cbn; [done| |done]. by destruct (decide _).
Qed.

Lemma progress_keeps n j :
  cls (progress n j) = cls j ∧ _cancelled (progress n j) = _cancelled j.
Proof.
  revert j. induction n as [|n IH]; intros j; [done|].
  cbn. destruct (step j) as [j'|] eqn:E; [|done].
  destruct (step_keeps _ _ E) as [<- <-]. apply IH.
Qed.

(** [n] ticks of a job in the registry are [n] steps of its task. *)
Lemma ticks_get (job_id : string) n c j :
  dict_get job_id (_jobs c) = Some j ->
  dict_get job_id (_jobs (ticks n job_id c)) = Some (progress n j).
Proof.
  intros Hj. induction n as [|n IH]; [done|].
  rewrite progress_S. cbn [ticks]. unfold tick. rewrite IH.
  destruct (step (progress n j)) as [j'|]; cbn; [|done].
  apply dict_get_set_eq.
Qed.

Lemma read_status_get (job_id : string) c j :
  dict_get job_id (_jobs c) = Some j ->
  read_status job_id c = Ok (status (to_dict j)).
Proof. intros H. unfold read_status, job_get, _get_job. by rewrite H. Qed.

Lemma job_results_get (job_id : string) c j :
  dict_get job_id (_jobs c) = Some j ->
  job_results job_id c = FakeJob.result j.
Proof. intros H. unfold job_results, _get_job. by rewrite H. Qed.

(** ** The default profile *)

(** With no class queued and no final status preset, [program_run] registers
    a [BaseFakeRuntimeJob] constructed without a final status. *)
Lemma program_run_default (uuid program_id : string) cred backend params image c :
  _job_classes c = [] ->
  FakeClient._final_status c = None ->
  _job_kwargs c = None ->
  ∃ j0,
    FakeJob.__init__ BaseFakeRuntimeJob uuid program_id
      (opt_or (FakeClient._hub c) (cred_hub cred))
      (opt_or (FakeClient._group c) (cred_group cred))
      (opt_or (FakeClient._project c) (cred_project cred))
      backend None params image None = Ok j0
    ∧ program_run uuid program_id cred backend params image c
      = (set_jobs (dict_set uuid j0 (_jobs c)) c, Ok uuid).
Proof.
  intros Hc Hf Hk. unfold program_run. rewrite Hc, Hf, Hk. by eexists.
Qed.

(** What a poller can see of a default job after [n] steps of its task: the
    status, the result, and what the task has left to do. *)
Lemma default_job_view job_id program_id hub group project backend params image j0 n :
  FakeJob.__init__ BaseFakeRuntimeJob job_id program_id hub group project
    backend None params image None = Ok j0 ->
  let j := progress n j0 in
  (cls j, _cancelled j, _status j, _result j, _future j)
  = (BaseFakeRuntimeJob, false,
     match n with
     | 0 | 1 | 2 => "QUEUED"
     | 3 => "RUNNING"
     | _ => "COMPLETED"
     end,
     match n with
     | 0 | 1 | 2 | 3 | 4 => Some None
     | _ => Some (Some (json_dumps "foo"))
     end,
     match n with
     | 0 => Some (Pending (_auto_progress BaseFakeRuntimeJob))
     | 1 | 2 | 3 | 4 | 5 =>
         Some (Running (drop (n - 1) (_auto_progress BaseFakeRuntimeJob)))
     | _ => Some Finished
     end).
Proof.
  intros [= <-]. cbv zeta. do 6 (destruct n as [|n]; [reflexivity|]).
  replace (S (S (S (S (S (S n)))))) with (6 + n) by lia.
  rewrite progress_add. by rewrite progress_stuck.
Qed.

(** C4, as the code has it.  A job submitted with no class queued and no
    final status preset is read as QUEUED; each step of its task keeps the
    status or moves it one place along QUEUED, RUNNING, COMPLETED; the result
    read is [None] whenever the status read is not COMPLETED; and from the
    fifth step of the task on, the status is COMPLETED and the result is the
    payload. *)
Theorem default_job_progression
    (uuid program_id : string) cred backend params image c n :
  _job_classes c = [] ->
  FakeClient._final_status c = None ->
  _job_kwargs c = None ->
  let c0 := (program_run uuid program_id cred backend params image c).1 in
  ∃ st r st',
    read_status uuid c0 = Ok "QUEUED"
    ∧ read_status uuid (ticks n uuid c0) = Ok st
    ∧ job_results uuid (ticks n uuid c0) = Ok r
    ∧ read_status uuid (ticks (S n) uuid c0) = Ok st'
    ∧ (st, st') ∈ [("QUEUED", "QUEUED"); ("QUEUED", "RUNNING");
                   ("RUNNING", "COMPLETED"); ("COMPLETED", "COMPLETED")]
    ∧ (st ≠ "COMPLETED" -> r = None)
    ∧ ((5 ≤ n)%nat -> st = "COMPLETED" ∧ r = Some (json_dumps "foo")).
Proof.
  intros Hc Hf Hk. cbv zeta.
  destruct (program_run_default uuid program_id cred backend params image c Hc Hf Hk)
    as (j0 & Hinit & ->). cbn [fst].
  set (c0 := set_jobs _ c).
  assert (dict_get uuid (_jobs c0) = Some j0) as Hget by apply dict_get_set_eq.
  pose proof (ticks_get uuid n c0 j0 Hget) as Hn.
  pose proof (ticks_get uuid (S n) c0 j0 Hget) as HS.
  pose proof (default_job_view _ _ _ _ _ _ _ _ j0 0 Hinit) as V0.
  pose proof (default_job_view _ _ _ _ _ _ _ _ j0 n Hinit) as Vn.
  pose proof (default_job_view _ _ _ _ _ _ _ _ j0 (S n) Hinit) as VS.
  cbv zeta in V0, Vn, VS. change (progress 0 j0) with j0 in V0.
  remember (progress n j0) as jn eqn:En. remember (progress (S n) j0) as jS eqn:ES.
  clear En ES.
  injection V0 as Hc0 _ Hs0 _ _. injection Vn as Hcn _ Hsn Hrn _.
  injection VS as HcS _ HsS _ _.
  exists (_status jn), (default None (_result jn)), (_status jS).
  rewrite (read_status_get _ _ _ Hget), (read_status_get _ _ _ Hn),
    (read_status_get _ _ _ HS), (job_results_get _ _ _ Hn).
  unfold to_dict, FakeJob.result. rewrite Hc0, Hcn, HcS.
  cbn [base_to_dict status]. rewrite Hs0, Hsn, HsS, Hrn.
  split; [done|]. clear.
  do 6 (destruct n as [|n];
        [cbn; repeat split; try done; try lia;
         repeat (first [apply list_elem_of_here | apply list_elem_of_further])|]).
  cbn. repeat split; try done.
  repeat (first [apply list_elem_of_here | apply list_elem_of_further]).
Qed.

(** C4, counterexample: after the fourth step of the task, a poller reads the
    status COMPLETED and, from the same state, the result [None].  The task
    writes the status in its loop and the result in the statement after it. *)
Lemma completed_before_result :
  let cred := {| cred_hub := Some "hub"; cred_group := Some "group";
                 cred_project := Some "project" |} in
  let c := FakeClient.__init__ [] None None None None None in
  let c0 := (program_run "job-1" "sampler" cred None "{}" None c).1 in
  read_status "job-1" (ticks 4 "job-1" c0) = Ok "COMPLETED"
  ∧ job_results "job-1" (ticks 4 "job-1" c0) = Ok None.
Proof. vm_compute. by split. Qed.

(** A cancelled job stays cancelled while its task goes on. *)
Lemma ticks_cancelled (job_id : string) c j n :
  dict_get job_id (_jobs c) = Some j ->
  cls j = CancelableRuntimeJob ->
  _cancelled j = true ->
  read_status job_id (ticks n job_id c) = Ok "CANCELLED".
Proof.
  intros Hget Hcls Hcan.
  rewrite (read_status_get _ _ _ (ticks_get job_id n c j Hget)).
  destruct (progress_keeps n j) as [Hc' Hk'].
  unfold to_dict. by rewrite Hc', Hcls, Hk', Hcan.
Qed.

(** C5, as the code has it.  On a job of the cancelable class that has a
    progress task (one created without a preset final status), [job_cancel]
    returns and every later status read reports CANCELLED, however far the task
    has got.  On a job of any other class, the default one included,
    [job_cancel] raises [AttributeError] and changes nothing. *)
Theorem cancel_only_on_cancelable (job_id : string) c j n :
  dict_get job_id (_jobs c) = Some j ->
  (cls j = CancelableRuntimeJob -> is_Some (_future j) ->
     ∃ c', job_cancel job_id c = (c', Ok tt)
       ∧ read_status job_id (ticks n job_id c') = Ok "CANCELLED")
  ∧ (cls j ≠ CancelableRuntimeJob ->
     job_cancel job_id c
     = (c, Raise (AttributeError (class_name (cls j)) "cancel"))).
Proof.
  intros Hget. split.
  - intros Hcls [f Hf]. unfold job_cancel, _get_job, cancel.
    rewrite Hget. cbn. rewrite Hcls, Hf.
    eexists. split; [reflexivity|].
    eapply ticks_cancelled; [apply dict_get_set_eq|done..].
  - intros Hcls. unfold job_cancel, _get_job, cancel. rewrite Hget. cbn.
    by destruct (cls j).
Qed.

(** C5, counterexample: a job of the default profile.  While it is QUEUED,
    [job_cancel] raises and the next status read is still QUEUED; once it is
    COMPLETED, [job_cancel] raises as well. *)
Lemma cancel_fails_on_default_job :
  let cred := {| cred_hub := Some "hub"; cred_group := Some "group";
                 cred_project := Some "project" |} in
  let c := FakeClient.__init__ [] None None None None None in
  let c0 := (program_run "job-1" "sampler" cred None "{}" None c).1 in
  let c6 := ticks 6 "job-1" c0 in
  read_status "job-1" c0 = Ok "QUEUED"
  ∧ job_cancel "job-1" c0
    = (c0, Raise (AttributeError "BaseFakeRuntimeJob" "cancel"))
  ∧ read_status "job-1" c6 = Ok "COMPLETED"
  ∧ job_cancel "job-1" c6
    = (c6, Raise (AttributeError "BaseFakeRuntimeJob" "cancel")).
Proof. vm_compute. by repeat split. Qed.

(** With only the [pending] filter given, [jobs_get] returns the jobs whose
    [_status] is in the list the flag selects. *)
Lemma jobs_get_by_pending (p : bool) c :
  let statuses :=
    if p then ["QUEUED"; "RUNNING"] else ["COMPLETED"; "FAILED"; "CANCELLED"] in
  let selected := filter (fun j => _status j ∈ statuses) (snd <$> _jobs c) in
  jobs_get None None (Some p) None None None None c
  = {| jobs := to_dict <$> selected; count := length selected |}.
Proof.
  cbv zeta. unfold jobs_get. cbn [truthy andb nat_or drop].
  rewrite take_ge; [done|].
  etrans; [apply length_filter|]. by rewrite length_fmap.
Qed.

(** C8, at a job that ran too long: once its task has returned, its status is
    "CANCELLED - RAN TOO LONG" and it has its error payload, yet [jobs_get]
    lists it neither with [pending=True] nor with [pending=False], while the
    unfiltered list has it. *)
Theorem ran_too_long_job_in_neither_list :
  let cred := {| cred_hub := Some "hub"; cred_group := Some "group";
                 cred_project := Some "project" |} in
  let c := FakeClient.__init__ [FailedRanTooLongRuntimeJob] None None None None None in
  let c0 := (program_run "job-1" "sampler" cred None "{}" None c).1 in
  let c7 := ticks 7 "job-1" c0 in
  (_future <$> dict_get "job-1" (_jobs c7)) = Some (Some Finished)
  ∧ read_status "job-1" c7 = Ok "CANCELLED - RAN TOO LONG"
  ∧ job_results "job-1" c7 = Ok (Some "Kaboom!")
  ∧ jobs_get None None (Some false) None None None None c7
    = {| jobs := []; count := 0 |}
  ∧ jobs_get None None (Some true) None None None None c7
    = {| jobs := []; count := 0 |}
  ∧ count (jobs_get None None None None None None None c7) = 1.
Proof. vm_compute. by repeat split. Qed.

Lemma default_job_progression_witness :
  let c := Examples.default_client in
  let c0 := (program_run "job-1" "sampler" Examples.credentials None "{}" None c).1 in
  (_job_classes c = [] ∧ FakeClient._final_status c = None ∧ _job_kwargs c = None)
  ∧ ∃ st r st',
      read_status "job-1" c0 = Ok "QUEUED"
      ∧ read_status "job-1" (ticks 3 "job-1" c0) = Ok st
      ∧ job_results "job-1" (ticks 3 "job-1" c0) = Ok r
      ∧ read_status "job-1" (ticks 4 "job-1" c0) = Ok st'
      ∧ (st, st') ∈ [("QUEUED", "QUEUED"); ("QUEUED", "RUNNING");
                     ("RUNNING", "COMPLETED"); ("COMPLETED", "COMPLETED")]
      ∧ (st ≠ "COMPLETED" -> r = None)
      ∧ ((5 ≤ 3)%nat -> st = "COMPLETED" ∧ r = Some (json_dumps "foo")).
Proof.
  cbv zeta. split; [repeat split|].
  apply (default_job_progression "job-1" "sampler" Examples.credentials None "{}"
           None Examples.default_client 3); reflexivity.
Defined.

Lemma cancel_only_on_cancelable_witness :
  let c := Examples.cancelable_client in
  ∃ j,
    dict_get "job-1" (_jobs c) = Some j
    ∧ cls j = CancelableRuntimeJob
    ∧ is_Some (_future j)
    ∧ (∃ c', job_cancel "job-1" c = (c', Ok tt)
         ∧ read_status "job-1" (ticks 2 "job-1" c') = Ok "CANCELLED")
    ∧ (cls j ≠ CancelableRuntimeJob ->
       job_cancel "job-1" c
       = (c, Raise (AttributeError (class_name (cls j)) "cancel"))).
Proof.
  cbv zeta. eexists. split; [reflexivity|]. split; [reflexivity|].
  split; [eexists; reflexivity|].
  destruct (cancel_only_on_cancelable "job-1" Examples.cancelable_client _ 2 eq_refl)
    as [Hcancel Hother].
  split; [|exact Hother].
  apply Hcancel; [reflexivity|eexists; reflexivity].
Defined.

End FakeProps.

(** * More properties of the fake client: jobs *)

Module FakeJobsProps.

Import Fake Fake.FakeJob Fake.FakeClient FakeUse FakeProps.

Implicit Types (j : job) (c : client) (n : nat).

(** ** Dictionaries *)

Lemma dict_get_del_eq {V} (k : string) (d : list (string * V)) :
  dict_get k (dict_del k d) = None.
Proof.
  unfold dict_get, dict_del. induction d as [|[k' v'] d IH]; [done|].
  destruct (decide (k' = k)) as [->|Hne].
  - by rewrite filter_cons_False by (cbn; naive_solver).
  - rewrite filter_cons_True by done. cbn.
    by rewrite bool_decide_eq_false_2.
Qed.

Lemma dict_get_del_ne {V} (k k' : string) (d : list (string * V)) :
  k ≠ k' -> dict_get k' (dict_del k d) = dict_get k' d.
Proof.
  intros Hne. unfold dict_get, dict_del. induction d as [|[k0 v0] d IH]; [done|].
  destruct (decide (k0 = k)) as [->|Hne0].
  - rewrite filter_cons_False by (cbn; naive_solver). cbn.
    by rewrite bool_decide_eq_false_2.
  - rewrite filter_cons_True by done. cbn.
    destruct (bool_decide (k0 = k')); [done|]. apply IH.
Qed.

Lemma dict_get_elem {V} (k : string) (v : V) d :
  dict_get k d = Some v -> v ∈ snd <$> d.
Proof.
  unfold dict_get. induction d as [|[k' v'] d IH]; [done|]. cbn.
  destruct (bool_decide (k' = k)); cbn.
  - intros [= <-]. apply list_elem_of_here.
  - intros H. apply list_elem_of_further. by apply IH.
Qed.

(** ** Construction *)

(** What [__init__] stores, whichever the class. *)
Lemma init_fields k job_id program_id hub group project backend final_status
    params image run_time j :
  FakeJob.__init__ k job_id program_id hub group project backend final_status
    params image run_time = Ok j ->
  cls j = k ∧ _job_id j = job_id ∧ _program_id j = program_id
  ∧ FakeJob._hub j = hub ∧ FakeJob._group j = group
  ∧ FakeJob._project j = project ∧ _backend_name j = backend
  ∧ _params j = params ∧ _image j = image ∧ _cancelled j = false
  ∧ _status j = str_or final_status "QUEUED"
  ∧ FakeJob._final_status j = final_status
  ∧ _future j = match final_status with
                | None => Some (Pending (_auto_progress k))
                | Some _ => None
                end.
Proof.
  unfold FakeJob.__init__. destruct k, run_time; intros [= <-]; done.
Qed.

(** X1: a job that [program_run] has started is found under the identifier
    returned, with the program, parameters, backend and image of the call;
    [job_get] returns its dictionary, and every other identifier is looked up
    as before. *)
Theorem program_run_registers
    (uuid program_id : string) cred backend params image c c' (job_id : string) :
  program_run uuid program_id cred backend params image c = (c', Ok job_id) ->
  job_id = uuid
  ∧ (∃ j, _get_job uuid c' = Ok j
       ∧ job_get uuid c' = Ok (to_dict j)
       ∧ _job_id j = uuid ∧ _program_id j = program_id ∧ _params j = params
       ∧ _backend_name j = backend ∧ _image j = image
       ∧ FakeJob.id (to_dict j) = uuid
       ∧ program (to_dict j) = program_id
       ∧ FakeJob.params (to_dict j) = [params])
  ∧ ∀ other, other ≠ uuid -> _get_job other c' = _get_job other c.
Proof.
  unfold program_run.
  set (st := match _job_classes c with
             | k :: rest => (k, set_job_classes rest c)
             | [] => (BaseFakeRuntimeJob, c)
             end).
  assert (_jobs st.2 = _jobs c) as Hjobs by (subst st; by destruct (_job_classes c)).
  destruct st as [k c1]. cbn [snd] in Hjobs.
  destruct (FakeJob.__init__ _ _ _ _ _ _ _ _ _ _ _) as [j|e] eqn:Hinit; [|done].
  intros [= <- <-]. split; [done|].
  apply init_fields in Hinit
    as (Hk & Hid & Hp & _ & _ & _ & Hb & Hpa & Hi & Hc & _).
  split.
  - exists j. unfold job_get, _get_job. cbn [_jobs set_jobs].
    rewrite dict_get_set_eq. cbn. repeat split; try done.
    all: unfold to_dict; rewrite Hc; destruct (cls j); cbn; congruence.
  - intros other Hne. unfold _get_job. cbn [_jobs set_jobs].
    by rewrite dict_get_set_ne, Hjobs by done.
Qed.

(** X2: [program_run] takes the class of the job from the head of the queue,
    and the default class when the queue is empty; the head is removed even
    when constructing the job raises, in which case no job is registered. *)
Theorem program_run_pops_queue
    (uuid program_id : string) cred backend params image c :
  let '(c', r) := program_run uuid program_id cred backend params image c in
  _job_classes c' = tail (_job_classes c)
  ∧ FakeClient._final_status c' = FakeClient._final_status c
  ∧ _job_kwargs c' = _job_kwargs c
  ∧ match r with
    | Ok _ =>
        ∃ j, dict_get uuid (_jobs c') = Some j
          ∧ cls j = default BaseFakeRuntimeJob (head (_job_classes c))
    | Raise _ => _jobs c' = _jobs c
    end.
Proof.
  unfold program_run.
  destruct (_job_classes c) as [|k rest] eqn:Hq; cbn [head tail default].
  - destruct (FakeJob.__init__ _ _ _ _ _ _ _ _ _ _ _) as [j|e] eqn:Hinit.
    + cbn. rewrite Hq. repeat split. exists j. split; [apply dict_get_set_eq|].
      by apply init_fields in Hinit as (Hk & _).
    + by rewrite Hq.
  - destruct (FakeJob.__init__ _ _ _ _ _ _ _ _ _ _ _) as [j|e] eqn:Hinit.
    + cbn. repeat split. exists j. split; [apply dict_get_set_eq|].
      by apply init_fields in Hinit as (Hk & _).
    + done.
Qed.

(** X3: [job_delete] removes the job and nothing else: afterwards [job_get],
    [job_results], [job_cancel] and a second [job_delete] on that identifier
    raise the 404 error, and every other identifier is looked up as before. *)
Theorem job_delete_removes (job_id : string) c j :
  dict_get job_id (_jobs c) = Some j ->
  ∃ c', job_delete job_id c = (c', Ok tt)
    ∧ job_get job_id c' = Raise (RequestsApiError "Job not found" 404)
    ∧ job_results job_id c' = Raise (RequestsApiError "Job not found" 404)
    ∧ job_cancel job_id c' = (c', Raise (RequestsApiError "Job not found" 404))
    ∧ job_delete job_id c' = (c', Raise (RequestsApiError "Job not found" 404))
    ∧ ∀ other, other ≠ job_id -> _get_job other c' = _get_job other c.
Proof.
  intros Hget. unfold job_delete, _get_job at 1. rewrite Hget.
  eexists. split; [reflexivity|].
  unfold job_get, job_results, job_cancel, job_delete, _get_job.
  cbn [_jobs set_jobs]. rewrite dict_get_del_eq. cbn.
  repeat split. intros other Hne. by rewrite dict_get_del_ne.
Qed.

(** On an identifier the registry does not hold, the job methods raise the
    404 error and leave the client as it is. *)
Lemma unknown_job_not_found (job_id : string) c :
  dict_get job_id (_jobs c) = None ->
  job_get job_id c = Raise (RequestsApiError "Job not found" 404)
  ∧ job_results job_id c = Raise (RequestsApiError "Job not found" 404)
  ∧ job_cancel job_id c = (c, Raise (RequestsApiError "Job not found" 404))
  ∧ job_delete job_id c = (c, Raise (RequestsApiError "Job not found" 404))
  ∧ tick job_id c = c.
Proof.
  intros H. unfold job_get, job_results, job_cancel, job_delete, tick, _get_job.
  by rewrite H.
Qed.

(** ** Life cycles *)

(** X4: a job created with a preset final status has no progress task: its
    status is the preset one (QUEUED for the empty string) at every later
    moment, its result is the JSON payload when the preset status is
    COMPLETED and otherwise reading it raises [AttributeError], the attribute
    never having been set; and [cancel] raises [AttributeError] whatever the
    class. *)
Theorem preset_final_status k job_id program_id hub group project backend
    (final_status : string) params image run_time j n :
  FakeJob.__init__ k job_id program_id hub group project backend
    (Some final_status) params image run_time = Ok j ->
  progress n j = j
  ∧ status (to_dict j) = (if decide (final_status = "") then "QUEUED" else final_status)
  ∧ FakeJob.result j
    = (if decide (final_status = "COMPLETED") then Ok (Some (json_dumps "foo"))
       else Raise (AttributeError (class_name k) "_result"))
  ∧ ∃ attr, cancel j = Raise (AttributeError (class_name k) attr).
Proof.
  intros Hinit.
  assert (_result j = if decide (final_status = "COMPLETED")
                      then Some (Some (json_dumps "foo")) else None) as Hres.
  { revert Hinit. unfold FakeJob.__init__.
    destruct k, run_time; intros [= <-]; done. }
  apply init_fields in Hinit
    as (Hk & _ & _ & _ & _ & _ & _ & _ & _ & Hc & Hs & _ & Hf).
  split; [|split; [|split]].
  - apply progress_stuck. unfold step. by rewrite Hf.
  - assert (status (to_dict j) = _status j) as ->.
    { unfold to_dict. rewrite Hc. by destruct (cls j). }
    by rewrite Hs.
  - unfold FakeJob.result. rewrite Hres, Hk. by destruct (decide _).
  - unfold cancel. rewrite Hk, Hf. destruct k; by eexists.
Qed.

(** After seven steps the task of any job has returned. *)
Lemma every_profile_finishes_aux k job_id program_id hub group project backend
    params image run_time j0 :
  FakeJob.__init__ k job_id program_id hub group project backend None
    params image run_time = Ok j0 ->
  step (progress 7 j0) = None.
Proof.
  unfold FakeJob.__init__.
  destruct k, run_time as [[|seconds|seconds]|]; intros [= <-]; reflexivity.
Qed.


(** X6: at every moment of a job created without a final status, whatever its
    class, the stored status is QUEUED or one of the statuses of the class,
    reading the result never raises, and the result is [None] unless the
    status is the last one of the class. *)
Theorem result_only_with_last_status k job_id program_id hub group project
    backend params image run_time j0 n :
  FakeJob.__init__ k job_id program_id hub group project backend None
    params image run_time = Ok j0 ->
  let j := progress n j0 in
  _status j ∈ "QUEUED" :: _job_progress k
  ∧ (∃ r, FakeJob.result j = Ok r
       ∧ (r ≠ None -> Some (_status j) = last (_job_progress k))).
Proof.
  intros Hinit. cbv zeta.
  assert (∀ m, (m ≤ 7)%nat ->
            _status (progress m j0) ∈ "QUEUED" :: _job_progress k
            ∧ (_result (progress m j0) = Some None
               ∨ ∃ payload, _result (progress m j0) = Some (Some payload)
                   ∧ Some (_status (progress m j0)) = last (_job_progress k)))
    as Hsmall.
  { revert Hinit. unfold FakeJob.__init__.
    destruct k, run_time as [[|seconds|seconds]|]; intros [= <-] m Hm;
      (do 8 (destruct m as [|m];
             [split;
              [vm_compute;
               repeat (first [apply list_elem_of_here
                             | apply list_elem_of_further])
              |vm_compute;
               first [by left | right; eexists; split; reflexivity]]|]));
      lia. }
  assert (∃ m, (m ≤ 7)%nat ∧ progress n j0 = progress m j0) as (m & Hm & ->).
  { destruct (decide (n ≤ 7)%nat) as [Hle|Hgt]; [by exists n|].
    exists 7. split; [done|].
    replace n with (7 + (n - 7)) by lia. rewrite progress_add.
    apply progress_stuck.
    by eapply every_profile_finishes_aux. }
  destruct (Hsmall m Hm) as [Hst [Hres|(payload & Hres & Hlast)]].
  - split; [done|]. exists None. unfold FakeJob.result. by rewrite Hres.
  - split; [done|]. exists (Some payload). unfold FakeJob.result.
    by rewrite Hres.
Qed.

(** ** Listing jobs *)

Lemma filter_all {A} (P : A -> Prop) `{!∀ x, Decision (P x)} (l : list A) :
  (∀ x, P x) -> filter P l = l.
Proof.
  intros HP. induction l as [|x l IH]; [done|].
  by rewrite filter_cons_True, IH.
Qed.

(** [jobs_get] in one pass: the window that starts at [skip] and is [limit]
    long of the jobs that pass every filter given, and their number. *)
Lemma jobs_get_filtered limit skip pending program_id hub group project c :
  let selected :=
    filter (passes pending program_id hub group project) (snd <$> _jobs c) in
  jobs_get limit skip pending program_id hub group project c
  = {| jobs := to_dict <$> take (nat_or limit (length (_jobs c)))
                             (drop (nat_or skip 0) selected);
       count := length selected |}.
Proof.
  cbv zeta. unfold jobs_get.
  set (l := snd <$> _jobs c).
  assert (length (_jobs c) = length l) as Hlen by (subst l; by rewrite length_fmap).
  assert (∀ (P Q : job -> Prop) `{!∀ x, Decision (P x)} `{!∀ x, Decision (Q x)}
            (l : list job), (∀ x, P x ↔ Q x) -> filter P l = filter Q l) as Hiff.
  { intros P Q ? ? l' HPQ. by apply list_filter_iff. }
  destruct pending as [[|]|], (truthy program_id) eqn:Ep,
    (truthy hub && truthy group && truthy project) eqn:Eo;
    cbn [negb]; rewrite ?list_filter_filter, ?Hlen;
    (f_equal; [do 3 f_equal|f_equal]);
    first [ apply Hiff; intros x; unfold passes; rewrite Ep, Eo; tauto
          | symmetry; apply filter_all; intros x; unfold passes;
            rewrite Ep, Eo; tauto ].
Qed.

(** X7: every dictionary [jobs_get] returns is that of a registered job that
    passes the filters given; the list is never longer than [count], nor than
    a positive [limit]; and [count] does not depend on [limit] and [skip]. *)
Theorem jobs_get_sound limit skip pending program_id hub group project c :
  let r := jobs_get limit skip pending program_id hub group project c in
  (∀ d, d ∈ jobs r ->
     ∃ j, j ∈ snd <$> _jobs c
       ∧ passes pending program_id hub group project j
       ∧ d = to_dict j)
  ∧ (length (jobs r) ≤ count r)%nat
  ∧ (count r ≤ length (_jobs c))%nat
  ∧ (∀ k, limit = Some (S k) -> (length (jobs r) ≤ S k)%nat)
  ∧ count r = count (jobs_get None None pending program_id hub group project c).
Proof.
  cbv zeta. rewrite !jobs_get_filtered. cbn [jobs count].
  split; [|split; [|split; [|split]]].
  - intros d (j & -> & Hj)%list_elem_of_fmap.
    apply subseteq_take, subseteq_drop, list_elem_of_filter in Hj as [Hp Hj].
    by exists j.
  - rewrite length_fmap, length_take, length_drop. lia.
  - etrans; [apply length_filter|]. by rewrite length_fmap.
  - intros k ->. rewrite length_fmap, length_take. cbn [nat_or]. lia.
  - done.
Qed.

(** X8: paging is a window of the full listing.  The jobs returned with a
    limit and a skip are those of the listing without either, from position
    [skip] on and at most [limit] of them; the falsy values are the defaults,
    so that a limit of 0 lists as many jobs as no limit; and the full listing
    holds every job that passes the filters, as many as [count] says. *)
Theorem jobs_get_paging limit skip pending program_id hub group project c :
  let full := jobs_get None None pending program_id hub group project c in
  jobs (jobs_get limit skip pending program_id hub group project c)
  = take (nat_or limit (length (_jobs c))) (drop (nat_or skip 0) (jobs full))
  ∧ jobs_get (Some 0) skip pending program_id hub group project c
    = jobs_get None skip pending program_id hub group project c
  ∧ jobs_get limit (Some 0) pending program_id hub group project c
    = jobs_get limit None pending program_id hub group project c
  ∧ jobs full = to_dict <$> filter (passes pending program_id hub group project)
                              (snd <$> _jobs c)
  ∧ length (jobs full) = count full.
Proof.
  cbv zeta. rewrite !jobs_get_filtered. cbn [jobs count nat_or drop].
  assert (length (filter (passes pending program_id hub group project)
                    (snd <$> _jobs c)) ≤ length (_jobs c))%nat as Hle.
  { etrans; [apply length_filter|]. by rewrite length_fmap. }
  rewrite !drop_0, (take_ge (filter _ _)) by done.
  repeat split.
  - by rewrite fmap_take, fmap_drop.
  - by rewrite length_fmap.
Qed.

Lemma filter_disjoint_length {A} (P Q R : A -> Prop)
    `{!∀ x, Decision (P x)} `{!∀ x, Decision (Q x)} `{!∀ x, Decision (R x)}
    (l : list A) :
  (∀ x, P x -> R x) -> (∀ x, Q x -> R x) -> (∀ x, P x -> Q x -> False) ->
  (length (filter P l) + length (filter Q l) ≤ length (filter R l))%nat.
Proof.
  intros HPR HQR HPQ. induction l as [|x l IH]; [done|].
  rewrite !filter_cons.
  destruct (decide (P x)) as [HP|HP], (decide (Q x)) as [HQ|HQ],
    (decide (R x)) as [HR|HR]; cbn; try lia; naive_solver.
Qed.

(** X9: under the same other filters, no job is counted both as pending and
    as returned, and the two counts together do not exceed the count without
    the [pending] filter. *)
Theorem pending_and_returned_disjoint program_id hub group project c :
  let count_of pending :=
    count (jobs_get None None pending program_id hub group project c) in
  (count_of (Some true) + count_of (Some false) ≤ count_of None)%nat
  ∧ ∀ j, passes (Some true) program_id hub group project j ->
         passes (Some false) program_id hub group project j -> False.
Proof.
  cbv beta zeta. rewrite !jobs_get_filtered. cbn [count].
  assert (∀ j, passes (Some true) program_id hub group project j ->
               passes (Some false) program_id hub group project j -> False)
    as Hdis.
  { intros j [Hp _] [Hr _]. cbn in Hp, Hr.
    apply list_elem_of_In in Hp, Hr. cbn in Hp, Hr.
    destruct Hp as [Hp|[Hp|[]]]; rewrite <-Hp in Hr;
      destruct Hr as [?|[?|[?|[]]]]; discriminate. }
  split; [|done].
  apply filter_disjoint_length; [| |done].
  - intros j (_ & ? & ?). by split.
  - intros j (_ & ? & ?). by split.
Qed.

(** ** Cancelling *)

Lemma stays_pending_init job_id program_id hub group project backend params
    image j0 :
  FakeJob.__init__ CancelableRuntimeJob job_id program_id hub group project
    backend None params image None = Ok j0 ->
  stays_pending j0.
Proof.
  intros [= <-]. unfold stays_pending. cbn.
  repeat split; [apply list_elem_of_here|by eexists|].
  repeat constructor;
    repeat (first [apply list_elem_of_here | apply list_elem_of_further]).
Qed.

Lemma stays_pending_step j j' :
  stays_pending j -> step j = Some j' -> stays_pending j'.
Proof.
  intros (Hc & Hs & Hf & Hcode). unfold step.
  destruct (_future j) as [[code|[|i code]| |]|] eqn:E;
    [| |destruct (raises i j) eqn:Er| | |]; intros [= <-];
    unfold stays_pending; cbn in *.
  - by repeat split.
  - by repeat split.
  - by repeat split.
  - apply Forall_cons in Hcode as [Hi Hcode].
    destruct i as [s|s payload|]; cbn in *.
    + by repeat split.
    + destruct (decide (_status j = s)); by repeat split.
    + by repeat split.
Qed.

Lemma stays_pending_progress n j :
  stays_pending j -> stays_pending (progress n j).
Proof.
  revert j. induction n as [|n IH]; intros j Hj; [done|].
  cbn. destruct (step j) as [j'|] eqn:E; [|done].
  eapply IH, stays_pending_step; eauto.
Qed.

Lemma stays_pending_cancel j :
  stays_pending j ->
  ∃ j', cancel j = Ok j' ∧ stays_pending j' ∧ _cancelled j' = true.
Proof.
  intros (Hc & Hs & [f Hf] & Hcode). unfold cancel. rewrite Hc, Hf.
  eexists. split; [reflexivity|]. split; [|done].
  unfold stays_pending. cbn. repeat split; [done..|].
  rewrite Hf in Hcode. destruct f; cbn in *; try done.
Qed.

(** X10: a cancelable job that is cancelled at any moment after its creation
    reads as CANCELLED from then on, yet its stored status stays QUEUED or
    RUNNING: [jobs_get] goes on listing it with [pending=True], with the
    status CANCELLED in its dictionary, and a second [job_cancel] returns as
    the first did. *)
Theorem cancelled_job_listed_as_pending
    (job_id program_id : string) hub group project backend params image
    c j0 n m :
  FakeJob.__init__ CancelableRuntimeJob job_id program_id hub group project
    backend None params image None = Ok j0 ->
  dict_get job_id (_jobs c) = Some j0 ->
  ∃ c2 j,
    job_cancel job_id (ticks n job_id c) = (c2, Ok tt)
    ∧ dict_get job_id (_jobs (ticks m job_id c2)) = Some j
    ∧ read_status job_id (ticks m job_id c2) = Ok "CANCELLED"
    ∧ status (to_dict j) = "CANCELLED"
    ∧ _status j ∈ ["QUEUED"; "RUNNING"]
    ∧ to_dict j ∈ jobs (jobs_get None None (Some true) None None None None
                          (ticks m job_id c2))
    ∧ (job_cancel job_id (ticks m job_id c2)).2 = Ok tt.
Proof.
  intros Hinit Hget.
  pose proof (stays_pending_progress n j0 (stays_pending_init _ _ _ _ _ _ _ _ _ Hinit))
    as Hn.
  destruct (stays_pending_cancel _ Hn) as (j1 & Hcancel & H1 & Hc1).
  pose proof (ticks_get job_id n c j0 Hget) as Hgetn.
  exists (set_jobs (dict_set job_id j1 (_jobs (ticks n job_id c))) (ticks n job_id c)),
    (progress m j1).
  assert (dict_get job_id
            (_jobs (ticks m job_id
                      (set_jobs (dict_set job_id j1 (_jobs (ticks n job_id c)))
                         (ticks n job_id c))))
          = Some (progress m j1)) as Hgetm.
  { apply ticks_get. cbn [_jobs set_jobs]. apply dict_get_set_eq. }
  pose proof (stays_pending_progress m j1 H1) as (Hcls & Hst & Hfut & Hcode).
  destruct (progress_keeps m j1) as [_ Hcm]. rewrite Hc1 in Hcm.
  assert (status (to_dict (progress m j1)) = "CANCELLED") as Hread.
  { unfold to_dict. by rewrite Hcls, Hcm. }
  split; [|split; [done|split; [|split; [done|split; [done|split]]]]].
  - unfold job_cancel, _get_job. rewrite Hgetn. cbn. by rewrite Hcancel.
  - by rewrite (read_status_get _ _ _ Hgetm), Hread.
  - rewrite jobs_get_filtered. cbn [jobs nat_or drop].
    rewrite take_ge.
    2:{ etrans; [apply length_filter|]. by rewrite length_fmap. }
    apply list_elem_of_fmap_2, list_elem_of_filter.
    split; [by split|]. by eapply dict_get_elem.
  - destruct (stays_pending_cancel (progress m j1)) as (j2 & Hcancel2 & _); [done|].
    unfold job_cancel, _get_job. rewrite Hgetm. cbn. by rewrite Hcancel2.
Qed.

End FakeJobsProps.

(** * Properties of the program registry *)

Module FakeProgramsProps.

Import Fake FakePrograms FakeProps FakeJobsProps.

Section WithSpec.

Context {Spec : Type}.
Variable spec_truthy : Spec -> bool.
Variable b64decode : string -> outcome string.

Implicit Types (r : list (string * program Spec)) (p : program Spec).


(** X11: a program created under a new name, with a spec, is registered under
    that name: [program_get] returns its dictionary, with the decoded data
    and the truthy entries of the spec; every other program is looked up as
    before; creating a program of the same name again raises the 409
    conflict, whatever the other arguments; and the same call without a spec,
    as the default argument has it, raises [AttributeError] and registers
    nothing. *)
Theorem program_create_then_get (program_data name description : string)
    (max_execution_time : Z) (sp : spec_dict Spec) (is_public : bool) r
    (decoded : string) :
  dict_get name r = None ->
  b64decode program_data = Ok decoded ->
  ∃ r',
    program_create program_data name description max_execution_time (Some sp)
      is_public r = (r', Ok name)
    ∧ program_get spec_truthy b64decode name r'
      = Ok {| FakePrograms.id := name; FakePrograms.name := name;
              cost := max_execution_time;
              FakePrograms.description := description;
              FakePrograms.is_public := is_public;
              creation_date := "2021-09-13T17:27:42Z";
              update_date := "2021-09-14T19:25:32Z";
              data := Some decoded;
              spec :=
                {| backend_requirements :=
                     spec_entry spec_truthy (backend_requirements sp);
                   parameters := spec_entry spec_truthy (parameters sp);
                   return_values := spec_entry spec_truthy (return_values sp);
                   interim_results :=
                     spec_entry spec_truthy (interim_results sp) |} |}
    ∧ (∀ other, other ≠ name -> dict_get other r' = dict_get other r)
    ∧ (∀ data' description' cost' sp' public',
         program_create data' name description' cost' sp' public' r'
         = (r', Raise (RequestsApiError "Program already exists." 409)))
    ∧ program_create program_data name description max_execution_time None
        is_public r
      = (r, Raise (AttributeError "NoneType" "get")).
Proof.
  intros Hnew Hdec. unfold program_create at 1. rewrite Hnew.
  eexists. split; [reflexivity|]. split; [|split; [|split]].
  - unfold program_get. rewrite dict_get_set_eq.
    unfold to_dict. cbn. by rewrite Hdec.
  - intros other Hne. by rewrite dict_get_set_ne.
  - intros. unfold program_create. by rewrite dict_get_set_eq.
  - unfold program_create. by rewrite Hnew.
Qed.

(** X12: [program_delete] removes the program and nothing else: afterwards
    [program_get], [program_update] and a second [program_delete] raise the
    404 error, [set_program_visibility] raises [KeyError], every other
    program is looked up as before, and the name can be used to create a
    program again. *)
Theorem program_delete_removes (program_id : string) r p :
  dict_get program_id r = Some p ->
  ∃ r', program_delete program_id r = (r', Ok tt)
    ∧ program_get spec_truthy b64decode program_id r' = Raise not_found
    ∧ (∀ pd n d m sp,
         program_update spec_truthy program_id pd n d m sp r'
         = (r', Raise not_found))
    ∧ program_delete program_id r' = (r', Raise not_found)
    ∧ (∀ public, set_program_visibility program_id public r'
                 = (r', Raise (KeyError program_id)))
    ∧ (∀ other, other ≠ program_id -> dict_get other r' = dict_get other r)
    ∧ ∀ pd d m sp public,
        (program_create pd program_id d m (Some sp) public r').2 = Ok program_id.
Proof.
  intros Hget. unfold program_delete at 1. rewrite Hget.
  eexists. split; [reflexivity|].
  unfold program_get, program_update, program_delete, set_program_visibility,
    program_create.
  rewrite dict_get_del_eq. repeat split.
  intros other Hne. by apply dict_get_del_ne.
Qed.


(** X14: [set_program_visibility] changes the visibility of a registered
    program and nothing else of it, which [program_get] then shows; on an
    identifier that is not registered it raises [KeyError], not the 404 error
    of the other methods, and leaves the registry as it is. *)
Theorem set_program_visibility_only (program_id : string) (public : bool) r :
  match dict_get program_id r with
  | None =>
      set_program_visibility program_id public r
      = (r, Raise (KeyError program_id))
  | Some p =>
      ∃ r' p',
        set_program_visibility program_id public r = (r', Ok tt)
        ∧ dict_get program_id r' = Some p'
        ∧ _is_public p' = public
        ∧ dict_of spec_truthy p' None
          = {| FakePrograms.id := FakePrograms.id (dict_of spec_truthy p None);
               FakePrograms.name := FakePrograms.name (dict_of spec_truthy p None);
               cost := cost (dict_of spec_truthy p None);
               FakePrograms.description :=
                 FakePrograms.description (dict_of spec_truthy p None);
               FakePrograms.is_public := public;
               creation_date := creation_date (dict_of spec_truthy p None);
               update_date := update_date (dict_of spec_truthy p None);
               data := None;
               spec := spec (dict_of spec_truthy p None) |}
        ∧ program_get spec_truthy b64decode program_id r'
          = to_dict spec_truthy b64decode p' true
        ∧ ∀ other, other ≠ program_id -> dict_get other r' = dict_get other r
  end.
Proof.
  unfold set_program_visibility. destruct (dict_get program_id r) as [p|] eqn:E;
    [|done].
  eexists _, _. split; [reflexivity|]. split; [apply dict_get_set_eq|].
  repeat split.
  - unfold program_get. by rewrite dict_get_set_eq.
  - intros other Hne. by apply dict_get_set_ne.
Qed.

Lemma contains_empty (s : string) : contains "" s = true.
Proof. by destruct s. Qed.

(** What one program adds to the listing under the search string [s]. *)
Lemma list_programs_step_search (s : string) (acc : list (program_dict Spec)) p :
  list_programs_step spec_truthy (Some s) acc p
  = Ok (acc
        ++ (if decide (s = "") then [dict_of spec_truthy p None] else [])
        ++ (if contains s (lower (_name p)) || contains s (lower (_description p))
            then [dict_of spec_truthy p None] else [])).
Proof.
  unfold list_programs_step. cbn [truthy FakePrograms.name
    FakePrograms.description dict_of].
  destruct (decide (s = "")) as [->|Hne]; cbn [negb].
  - rewrite !contains_empty. cbn. by rewrite <-(assoc_L (++)).
  - destruct (_ || _); [done|]. by rewrite !app_nil_r.
Qed.

Lemma list_programs_loop_empty_search (acc : list (program_dict Spec))
    (progs : list (program Spec)) :
  list_programs_loop spec_truthy (Some "") acc progs
  = Ok (acc ++ (progs ≫= fun p => [dict_of spec_truthy p None;
                                   dict_of spec_truthy p None])).
Proof.
  revert acc. induction progs as [|p progs IH]; intros acc;
    cbn [list_programs_loop].
  - cbn. by rewrite app_nil_r.
  - rewrite list_programs_step_search. unfold mbind, outcome_bind.
    rewrite IH, !contains_empty. cbn. by rewrite <-!(assoc_L (++)).
Qed.

Lemma list_programs_loop_search (s : string) (acc : list (program_dict Spec))
    (progs : list (program Spec)) :
  s ≠ "" ->
  list_programs_loop spec_truthy (Some s) acc progs
  = Ok (acc ++ ((fun p => dict_of spec_truthy p None)
                <$> filter (fun p => contains s (lower (_name p))
                                     || contains s (lower (_description p)))
                      progs)).
Proof.
  intros Hs. revert acc. induction progs as [|p progs IH]; intros acc;
    cbn [list_programs_loop].
  - cbn. by rewrite app_nil_r.
  - rewrite list_programs_step_search. unfold mbind, outcome_bind.
    destruct (decide (s = "")) as [?|_]; [done|]. rewrite IH.
    rewrite filter_cons.
    destruct (contains s (lower (_name p)) || contains s (lower (_description p)));
      cbn.
    + by rewrite <-(assoc_L (++)).
    + by rewrite app_nil_r.
Qed.

(** X15: with a truthy search string, [list_programs] returns, in the order of
    the registry, the window of the programs whose lower-cased name or
    description contains the string, and counts them all; every program
    listed is one of the registry and contains the string. *)
Theorem list_programs_search (s : string) (limit skip : nat) r :
  s ≠ "" ->
  let found :=
    filter (fun p => contains s (lower (_name p))
                     || contains s (lower (_description p))) (snd <$> r) in
  list_programs spec_truthy (Some s) limit skip r
  = Ok {| programs := take limit (drop skip
                        ((fun p => dict_of spec_truthy p None) <$> found));
          count := length found |}
  ∧ (length found ≤ length r)%nat
  ∧ ∀ p, p ∈ found ->
      p ∈ snd <$> r
      ∧ (contains s (lower (_name p)) = true
         ∨ contains s (lower (_description p)) = true).
Proof.
  intros Hs. cbv zeta. split; [|split].
  - unfold list_programs. rewrite list_programs_loop_search by done. cbn.
    by rewrite length_fmap.
  - etrans; [apply length_filter|]. by rewrite length_fmap.
  - intros p [Hm Hp]%list_elem_of_filter. split; [done|].
    by apply orb_prop_elim in Hm as [?%Is_true_eq_true|?%Is_true_eq_true]; auto.
Qed.

(** X16: with the empty search string, [list_programs] lists every program
    twice and counts twice the size of the registry; with [None], it returns
    the empty listing on an empty registry and raises [TypeError] as soon as
    there is a program. *)
Theorem list_programs_falsy_search (limit skip : nat) r :
  list_programs spec_truthy (Some "") limit skip r
  = Ok {| programs :=
            take limit (drop skip
              ((snd <$> r) ≫= fun p => [dict_of spec_truthy p None;
                                        dict_of spec_truthy p None]));
          count := 2 * length r |}
  ∧ list_programs spec_truthy None limit skip []
    = Ok {| programs := []; count := 0 |}
  ∧ (r ≠ [] ->
     list_programs spec_truthy None limit skip r
     = Raise (TypeError "'in <string>' requires string as left operand, not NoneType")).
Proof.
  split; [|split].
  - unfold list_programs. rewrite list_programs_loop_empty_search. cbn.
    do 3 f_equal. induction r as [|[k p] r IH]; [done|]. cbn in *. lia.
  - unfold list_programs. cbn. by destruct skip, limit.
  - intros Hr. destruct r as [|[k p] r]; done.
Qed.

End WithSpec.

End FakeProgramsProps.

(** * More properties of the estimator options *)

Module OptionsMoreProps.

Import Options OptionsUse OptionsProps.

Implicit Types (o : EstimatorOptions) (a : assignment).

(** A value its field validator accepts keeps the levels in range. *)
Lemma store_keeps_range o a :
  validate_field a = Ok a -> levels_in_range o -> levels_in_range (store o a).
Proof.
  intros Hv [Ho Hr]. destruct a as [b|[|z]|[|z]|v|g]; try done.
  - split; [|done]. cbn.
    destruct (decide (0 ≤ z ≤ 3)%Z) as [Hz|Hz]; [done|].
    cbn [validate_field] in Hv. by rewrite (proj1 (range_rejects z Hz)) in Hv.
  - split; [done|]. cbn.
    destruct (decide (0 ≤ z ≤ 3)%Z) as [Hz|Hz]; [done|].
    cbn [validate_field] in Hv. by rewrite (proj2 (range_rejects z Hz)) in Hv.
Qed.

Lemma foldl_store_keeps_range (kwargs : list assignment) o :
  Forall (fun a => validate_field a = Ok a) kwargs ->
  levels_in_range o -> levels_in_range (foldl store o kwargs).
Proof.
  intros Hall. revert o. induction Hall as [|a kwargs Ha _ IH]; intros o Ho; [done|].
  cbn. by apply IH, store_keeps_range.
Qed.

(** The field validators of a constructor call that returns have accepted
    every value as it is. *)
Lemma mapM_validate_field_ok (kwargs kwargs' : list assignment) :
  mapM validate_field kwargs = Ok kwargs' ->
  kwargs' = kwargs ∧ Forall (fun a => validate_field a = Ok a) kwargs.
Proof.
  revert kwargs'. induction kwargs as [|a kwargs IH]; intros kwargs'.
  - by intros [= <-].
  - cbn [mapM]. destruct (validate_field_cases a) as [Ha|Ha]; rewrite Ha; [|done].
    cbn. destruct (mapM validate_field kwargs) as [k|e]; [|done].
    destruct (IH k eq_refl) as [-> Hall]. cbn. intros [= <-]. by split; [|constructor].
Qed.

Lemma init_ok (kwargs : list assignment) o :
  __init__ kwargs = Ok o ->
  o = foldl store defaults kwargs
  ∧ Forall (fun a => validate_field a = Ok a) kwargs
  ∧ coupling_map_missing o = false.
Proof.
  unfold __init__.
  destruct (mapM validate_field kwargs) as [k|e] eqn:Hm; [|done].
  apply mapM_validate_field_ok in Hm as [-> Hall]. cbn.
  unfold _validate_options.
  destruct (coupling_map_missing _) eqn:E; [done|]. by intros [= <-].
Qed.

(** An assignment that returns was given a value its field validator
    accepts. *)
Lemma setattr_validates o a o' :
  setattr o a = Ok o' -> validate_field a = Ok a.
Proof.
  unfold setattr. by destruct (validate_field_cases a) as [-> | ->].
Qed.

Lemma assign_all_ok (kwargs : list assignment) o o' :
  assign_all kwargs o = Ok o' ->
  o' = foldl store o kwargs
  ∧ Forall (fun a => validate_field a = Ok a) kwargs
  ∧ (coupling_map_missing o = false -> coupling_map_missing o' = false).
Proof.
  revert o. induction kwargs as [|a kwargs IH]; intros o.
  - by intros [= <-].
  - cbn [assign_all]. destruct (setattr o a) as [o1|e] eqn:Hs; [|done]. cbn.
    intros H. destruct (IH o1 H) as (-> & Hall & Hrule).
    pose proof (setattr_validates _ _ _ Hs) as Hv.
    apply setattr_ok in Hs as [-> Hm].
    split; [done|]. split; [by constructor|]. intros _. by apply Hrule.
Qed.

(** A change that returns keeps the levels in range and leaves the rule
    satisfied, whether it is an assignment to a field of the object or to the
    coupling map of its simulator group. *)
Lemma apply_change_ok o (c : change) o' :
  apply_change o c = Ok o' ->
  levels_in_range o ->
  levels_in_range o' ∧ coupling_map_missing o' = false.
Proof.
  destruct c as [a|v]; cbn [apply_change]; intros Hc Ho.
  - pose proof (setattr_validates _ _ _ Hc) as Hv.
    apply setattr_ok in Hc as [-> Hm]. split; [|done].
    by apply store_keeps_range.
  - revert Hc. unfold set_simulator_coupling_map, _validate_options.
    destruct (coupling_map_missing _) eqn:E; [done|]. intros [= <-].
    split; [|done]. by destruct Ho.
Qed.

Lemma change_all_ok (changes : list change) o o' :
  change_all changes o = Ok o' ->
  levels_in_range o -> coupling_map_missing o = false ->
  levels_in_range o' ∧ coupling_map_missing o' = false.
Proof.
  revert o. induction changes as [|c changes IH]; intros o.
  - by intros [= <-].
  - cbn [change_all]. destruct (apply_change o c) as [o1|e] eqn:Hc; [|done].
    cbn. intros H Ho _.
    destruct (apply_change_ok _ _ _ Hc Ho) as [Ho1 Hm1]. by apply (IH o1).
Qed.

(** X17: an options object that the constructor has returned, after any
    sequence of changes that all returned, each one an assignment to a field
    of the object or to the coupling map of its simulator group, has its two
    levels unset or in [0, 3] and passes the cross-field rule. *)
Theorem constructed_options_valid (kwargs : list assignment)
    (more : list change) o o' :
  __init__ kwargs = Ok o ->
  change_all more o = Ok o' ->
  level_in_range (optimization_level o')
  ∧ level_in_range (resilience_level o')
  ∧ coupling_map_missing o' = false.
Proof.
  intros (-> & Hk & Hm)%init_ok Hmore.
  destruct (change_all_ok more _ _ Hmore) as [[Ho Hr] Hrule]; [|done|done].
  by apply foldl_store_keeps_range.
Qed.

(** X18: the constructor checks the cross-field rule once, on the object with
    all the fields stored, where assignments check it after each field.
    Keyword arguments that can be assigned one after the other to new options
    are accepted by the constructor, with the same object; the converse
    fails: level 3, the simulator flag and a coupling map, in this order, are
    accepted by the constructor and rejected as assignments. *)
Theorem assignments_imply_constructor (kwargs : list assignment) o :
  assign_all kwargs defaults = Ok o ->
  __init__ kwargs = Ok o
  ∧ ∃ kwargs' o',
      __init__ kwargs' = Ok o'
      ∧ assign_all kwargs' defaults = Raise (ValueError coupling_map_message).
Proof.
  intros (-> & Hall & Hrule)%assign_all_ok. split.
  - unfold __init__.
    assert (mapM validate_field kwargs = Ok kwargs) as ->.
    { clear Hrule. induction Hall as [|a kwargs Ha _ IH]; [done|].
      cbn [mapM]. rewrite Ha. cbn. by rewrite IH. }
    cbn. unfold _validate_options. by rewrite Hrule.
  - exists [Set_resilience_level (Value 3%Z); Set_is_simulator true;
            Set_simulator {| coupling_map := Value [[0; 1]]%Z |}].
    by eexists.
Qed.

End OptionsMoreProps.

(** * More properties of the session and of the primitives *)

Module SessionMoreProps.

Import Session Primitives SessionProps.

Section WithService.

Context {Value Job Service ReadArgs : Type}.
Variable job_id : Job -> string.
Variable run : Service -> RunRequest Value -> Service * outcome Job.
Variable job_result : Service -> Job -> ReadArgs -> Service * outcome Value.
Variable read_defaults : ReadArgs.
Variable getitem : Value -> string -> outcome Value.
Variable of_dict : gmap string Value -> Value.

Implicit Types (s : RuntimeSession Job) (w : World Value Job Service).
Implicit Types (kwargs : gmap string Value).

(** When every recorded call raised, no job was submitted. *)
Lemma submitted_all_raised (evs : list (RunRequest Value * outcome Job)) :
  (∀ ev, ev ∈ evs -> ∃ e, ev.2 = Raise e) -> submitted evs = [].
Proof.
  induction evs as [|[req r] evs IH]; intros H; [done|].
  destruct (H (req, r)) as [e He]; [apply list_elem_of_here|].
  cbn in He. subst r. cbn. apply IH.
  intros ev Hev. apply H. by apply list_elem_of_further.
Qed.

(** The last submitted job is that of the last recorded call that returned. *)
Lemma last_submitted (evs : list (RunRequest Value * outcome Job)) i req job :
  evs !! i = Some (req, Ok job) ->
  (∀ i' ev, (i < i')%nat -> evs !! i' = Some ev -> ∃ e, ev.2 = Raise e) ->
  last (submitted evs) = Some (req, job).
Proof.
  intros Hi Hlater.
  rewrite <-(take_drop_middle evs i _ Hi), submitted_app.
  change (submitted ((req, Ok job) :: drop (S i) evs))
    with ((req, job) :: submitted (drop (S i) evs)).
  rewrite (submitted_all_raised (drop (S i) evs)); [apply last_snoc|].
  intros ev [k Hk]%list_elem_of_lookup. rewrite lookup_drop in Hk.
  eapply Hlater; [|exact Hk]. lia.
Qed.

(** X19: after any sequence of writes on a new session, [read] waits for the
    result of the job that [run] returned to the last write it accepted, on
    the service as the writes left it, whatever the writes after that one
    raised.  When [run] accepted none of the writes, [read] raises
    [AttributeError] and changes nothing. *)
Theorem read_after_writes program_id inputs options w
    (ks : list (gmap string Value)) (args : ReadArgs) :
  let s0 : RuntimeSession Job := __init__ program_id inputs options in
  let before i := writes job_id run (take i ks) (s0, w) in
  let st := writes job_id run ks (s0, w) in
  let st' := (read job_result args st).1 in
  let r := (read job_result args st).2 in
  ∃ evs, calls st.2 = calls w ++ evs
    ∧ length evs = length ks
    ∧ ((∀ ev, ev ∈ evs -> ∃ e, ev.2 = Raise e) ->
         r = Raise (AttributeError "NoneType" "result") ∧ st' = st)
    ∧ (∀ i req job, evs !! i = Some (req, Ok job) ->
         (∀ i' ev, (i < i')%nat -> evs !! i' = Some ev -> ∃ e, ev.2 = Raise e) ->
         (run (service (before i).2) req).2 = Ok job
         ∧ r = (job_result (service st.2) job args).2
         ∧ service st'.2 = (job_result (service st.2) job args).1
         ∧ calls st'.2 = calls st.2).
Proof.
  cbv zeta.
  destruct (writes_calls job_id run (__init__ program_id inputs options) w ks eq_refl)
    as (Hact & evs & Hc & Hlen & _).
  destruct (writes_run job_id run (__init__ program_id inputs options) w ks evs
              eq_refl Hc) as (_ & _ & Hjob & Hrun).
  cbv zeta in Hact, Hc, Hjob.
  exists evs. split; [done|]. split; [done|].
  destruct (writes job_id run ks (__init__ program_id inputs options, w))
    as [s1 w1].
  cbn [fst snd] in Hact, Hjob.
  unfold read, _active_session, read_body. cbn [fst]. rewrite Hact. cbn [negb].
  split.
  - intros Hall. rewrite (submitted_all_raised evs Hall) in Hjob. cbn in Hjob.
    by rewrite Hjob.
  - intros i req job Hi Hlater.
    rewrite (last_submitted evs i req job Hi Hlater) in Hjob. cbn in Hjob.
    rewrite Hjob. destruct (Hrun i _ Hi) as (_ & _ & Hr & _). cbn in Hr.
    split; [done|]. cbn [fst snd].
    by destruct (job_result (service w1) job args).
Qed.

(** X20: [write] on an active session raises exactly when the service does,
    with the same exception, and then leaves the session with the job and
    the session id it had, although the call was made; when the service
    returns a job, that job is the one the session holds afterwards. *)
Theorem write_raises_with_service s w kwargs :
  _active s = true ->
  let st' := (write job_id run kwargs (s, w)).1 in
  let r := (write job_id run kwargs (s, w)).2 in
  ∃ req, calls st'.2 = calls w ++ [(req, (run (service w) req).2)]
    ∧ service st'.2 = (run (service w) req).1
    ∧ match (run (service w) req).2 with
      | Ok job => r = Ok tt ∧ _job st'.1 = Some job
      | Raise e => r = Raise e ∧ st'.1 = s
      end.
Proof.
  intros Hact. cbv zeta. rewrite write_active by done.
  match goal with |- context [run (service w) ?r] => exists r end.
  destruct (run _ _).2 as [job|e]; cbn [fst snd calls service].
  - repeat split. by destruct (_session_id s).
  - by repeat split.
Qed.

(** The two statements both [__call__] methods begin with, on an active
    session. *)
Lemma write_then_read_active s w parameters run_options :
  _active s = true ->
  let kwargs := call_kwargs of_dict parameters run_options in
  let st' := (write_then_read job_id run job_result read_defaults of_dict
                parameters run_options (s, w)).1 in
  let r := (write_then_read job_id run job_result read_defaults of_dict
              parameters run_options (s, w)).2 in
  ∃ req,
    calls st'.2 = calls w ++ [(req, (run (service w) req).2)]
    ∧ req_program_id req = _program_id s
    ∧ req_options req = _options s
    ∧ req_session_id req = _session_id s
    ∧ req_inputs req = kwargs ∪ default ∅ (heap w !! _initial_inputs s)
    ∧ match (run (service w) req).2 with
      | Raise e =>
          r = Raise e ∧ st'.1 = s ∧ service st'.2 = (run (service w) req).1
      | Ok job =>
          _job st'.1 = Some job
          ∧ r = (job_result (run (service w) req).1 job read_defaults).2
          ∧ service st'.2
            = (job_result (run (service w) req).1 job read_defaults).1
      end.
Proof.
  intros Hact. cbv zeta. unfold write_then_read.
  rewrite write_active by done.
  match goal with |- context [run (service w) ?r] => exists r end.
  destruct (run _ _).2 as [job|e].
  - unfold read, _active_session, read_body. cbn [fst snd].
    assert (∀ (x : RuntimeSession Job), _active x = _active s -> negb (_active x) = false)
      as Hneg by (intros x ->; by rewrite Hact).
    rewrite Hneg by (by destruct (_session_id s)).
    assert (_job (match _session_id s with
                  | Some _ => set_job Job job s
                  | None => set_session_id Job (job_id job) (set_job Job job s)
                  end) = Some job) as Hjob by (by destruct (_session_id s)).
    rewrite Hjob. cbn [service].
    destruct (job_result _ job read_defaults) as [svc2 r2].
    cbn [fst snd calls service]. by repeat split.
  - cbn [fst snd calls service]. by repeat split.
Qed.

(** X21: a call of an estimator or sampler session that is active submits
    exactly one job, with the session's program and session id and with the
    initial inputs overlaid by [parameters] and [run_options]; when the
    service raises, the call raises the same and reads nothing; otherwise it
    reads the result of the job just submitted, and returns the entries
    "values" and "variances" (or "quasi_dists") of it, raising what the
    lookup of an entry raises. *)
Theorem session_call_submits_then_reads s w parameters run_options :
  _active s = true ->
  let est := EstimatorSession_call job_id run job_result read_defaults getitem
               of_dict parameters run_options (s, w) in
  let sam := SamplerSession_call job_id run job_result read_defaults getitem
               of_dict parameters run_options (s, w) in
  est.1 = sam.1
  ∧ ∃ req,
      calls est.1.2 = calls w ++ [(req, (run (service w) req).2)]
      ∧ req_program_id req = _program_id s
      ∧ req_session_id req = _session_id s
      ∧ req_inputs req
        = call_kwargs of_dict parameters run_options
          ∪ default ∅ (heap w !! _initial_inputs s)
      ∧ match (run (service w) req).2 with
        | Raise e =>
            est.2 = Raise e ∧ sam.2 = Raise e ∧ est.1.1 = s
            ∧ service est.1.2 = (run (service w) req).1
        | Ok job =>
            let read := job_result (run (service w) req).1 job read_defaults in
            _job est.1.1 = Some job
            ∧ service est.1.2 = read.1
            ∧ est.2 = (raw_result ← read.2;
                       values ← getitem raw_result "values";
                       variances ← getitem raw_result "variances";
                       Ok {| values := values; variances := variances |})
            ∧ sam.2 = (raw_result ← read.2;
                       quasi_dists ← getitem raw_result "quasi_dists";
                       Ok {| quasi_dists := quasi_dists; shots := None;
                             raw_results := None; metadata := None |})
        end.
Proof.
  intros Hact. cbv zeta.
  destruct (write_then_read_active s w parameters run_options Hact)
    as (req & Hc & Hp & _ & Hsid & Hin & Hr).
  unfold EstimatorSession_call, SamplerSession_call.
  destruct (write_then_read _ _ _ _ _ _ _ _) as [st' r]. cbn [fst snd] in *.
  split; [done|]. exists req. repeat split; try done.
  destruct (run (service w) req).2 as [job|e].
  - destruct Hr as (Hj & -> & Hs). by repeat split.
  - destruct Hr as (-> & Hs' & Hs). by repeat split.
Qed.

(** X22: on a closed session, a call of an estimator or sampler session raises
    the closed-session error before anything is written or read: session and
    world are as before. *)
Theorem session_call_closed s w parameters run_options :
  _active s = false ->
  EstimatorSession_call job_id run job_result read_defaults getitem of_dict
    parameters run_options (s, w) = ((s, w), Raise closed_error)
  ∧ SamplerSession_call job_id run job_result read_defaults getitem of_dict
      parameters run_options (s, w) = ((s, w), Raise closed_error).
Proof.
  intros Hact. unfold EstimatorSession_call, SamplerSession_call, write_then_read.
  by rewrite write_closed.
Qed.

(** X23: the session a primitive returns is new and active, without a job or
    a session id, and holds its inputs in a dictionary of its own: no
    dictionary that existed is changed, nothing is submitted yet, and the
    first write on the session sends the primitive's program identifier, no
    session id, and those inputs overlaid with the keyword arguments. *)
Theorem primitive_session_is_new (backend : option string)
    (circuits observables grouping transpile_options skip_transpilation : Value)
    w kwargs :
  let est := IBMEstimator_call backend circuits observables grouping
               transpile_options w in
  let sam := IBMSampler_call backend circuits transpile_options
               skip_transpilation w in
  let est_inputs : gmap string Value :=
    <["transpile_options" := transpile_options]>
      (<["grouping" := grouping]>
         (<["observables" := observables]> {[ "circuits" := circuits ]})) in
  let sam_inputs : gmap string Value :=
    <["skip_transpilation" := skip_transpilation]>
      (<["transpile_options" := transpile_options]> {[ "circuits" := circuits ]}) in
  (est.2 = __init__ "estimator-X322y4G534" (_initial_inputs est.2)
             (primitive_options backend)
   ∧ sam.2 = __init__ "sampler-Yxk1ZM0Rlm" (_initial_inputs sam.2)
               (primitive_options backend))
  ∧ (heap w !! _initial_inputs est.2 = None
     ∧ heap est.1 !! _initial_inputs est.2 = Some est_inputs
     ∧ heap sam.1 !! _initial_inputs sam.2 = Some sam_inputs)
  ∧ (∀ l d, heap w !! l = Some d ->
       heap est.1 !! l = Some d ∧ heap sam.1 !! l = Some d)
  ∧ (calls est.1 = calls w ∧ service est.1 = service w
     ∧ calls sam.1 = calls w ∧ service sam.1 = service w)
  ∧ ∃ jr_est jr_sam,
      calls (write job_id run kwargs (est.2, est.1)).1.2
      = calls w ++ [({| req_program_id := "estimator-X322y4G534";
                        req_options := primitive_options backend;
                        req_inputs := kwargs ∪ est_inputs;
                        req_session_id := None |}, jr_est)]
      ∧ calls (write job_id run kwargs (sam.2, sam.1)).1.2
        = calls w ++ [({| req_program_id := "sampler-Yxk1ZM0Rlm";
                          req_options := primitive_options backend;
                          req_inputs := kwargs ∪ sam_inputs;
                          req_session_id := None |}, jr_sam)].
Proof.
  cbv zeta. unfold IBMEstimator_call, IBMSampler_call, new_dict.
  cbn [fst snd heap calls service EstimatorSession SamplerSession
       _initial_inputs __init__].
  assert (heap w !! fresh (dom (heap w)) = None) as Hfresh.
  { apply not_elem_of_dom, is_fresh. }
  split; [done|]. split; [by rewrite !lookup_insert_eq|].
  split.
  { intros l d Hl. rewrite !lookup_insert_ne; [done|..];
      intros <-; by rewrite Hfresh in Hl. }
  split; [done|].
  rewrite !write_active by done.
  cbn [fst snd heap calls service _initial_inputs _program_id _options
       _session_id EstimatorSession SamplerSession __init__].
  rewrite !lookup_insert_eq. cbn [default from_option id].
  set (req_est := {| req_program_id := "estimator-X322y4G534";
                     req_options := _; req_inputs := _;
                     req_session_id := None |}).
  set (req_sam := {| req_program_id := "sampler-Yxk1ZM0Rlm";
                     req_options := _; req_inputs := _;
                     req_session_id := None |}).
  exists (run (service w) req_est).2, (run (service w) req_sam).2. split.
  - by destruct (run (service w) req_est).2.
  - by destruct (run (service w) req_sam).2.
Qed.

End WithService.

End SessionMoreProps.

(** * The extra properties at concrete inputs *)

Module ExtraWitnesses.

Import Fake Fake.FakeJob Fake.FakeClient FakeUse.

Lemma program_run_registers_witness :
  ∃ c',
    program_run "job-2" "estimator" Examples.credentials (Some "ibmq_qasm")
      "{}" None MoreExamples.one_job_client = (c', Ok "job-2")
    ∧ ∀ other, other ≠ "job-2" ->
        _get_job other c' = _get_job other MoreExamples.one_job_client.
Proof.
  eexists. split; [reflexivity|].
  eapply (FakeJobsProps.program_run_registers "job-2" "estimator"
            Examples.credentials (Some "ibmq_qasm") "{}" None
            MoreExamples.one_job_client _ "job-2" eq_refl).
Defined.

Lemma job_delete_removes_witness :
  ∃ j c',
    dict_get "job-1" (_jobs MoreExamples.one_job_client) = Some j
    ∧ job_delete "job-1" MoreExamples.one_job_client = (c', Ok tt)
    ∧ job_get "job-1" c' = Raise (RequestsApiError "Job not found" 404).
Proof.
  eexists.
  destruct (FakeJobsProps.job_delete_removes "job-1" MoreExamples.one_job_client
              _ eq_refl) as (c' & Hdel & Hget & _).
  exists c'. split; [reflexivity|]. by split.
Defined.

Lemma preset_final_status_witness :
  ∃ j,
    FakeJob.__init__ BaseFakeRuntimeJob "job-1" "sampler" None None None None
      (Some "FAILED") "{}" None None = Ok j
    ∧ progress 3 j = j
    ∧ status (to_dict j) = "FAILED"
    ∧ FakeJob.result j = Raise (AttributeError "BaseFakeRuntimeJob" "_result").
Proof.
  eexists. split; [reflexivity|].
  destruct (FakeJobsProps.preset_final_status BaseFakeRuntimeJob "job-1"
              "sampler" None None None None "FAILED" "{}" None None _ 3 eq_refl)
    as (Hp & Hs & Hr & _).
  split; [exact Hp|]. split; [exact Hs|exact Hr].
Defined.


Lemma result_only_with_last_status_witness :
  ∃ j0,
    FakeJob.__init__ TimedRuntimeJob "job-1" "sampler" None None None None
      None "{}" None (Some 5%Z) = Ok j0
    ∧ _status (progress 2 j0) ∈ "QUEUED" :: _job_progress TimedRuntimeJob
    ∧ ∃ r, FakeJob.result (progress 2 j0) = Ok r
        ∧ (r ≠ None ->
           Some (_status (progress 2 j0)) = last (_job_progress TimedRuntimeJob)).
Proof.
  eexists. split; [reflexivity|].
  apply (FakeJobsProps.result_only_with_last_status TimedRuntimeJob "job-1"
           "sampler" None None None None "{}" None (Some 5%Z) _ 2 eq_refl).
Defined.

Lemma cancelled_job_listed_as_pending_witness :
  ∃ j0 c2 j,
    FakeJob.__init__ CancelableRuntimeJob "job-1" "sampler" (Some "hub")
      (Some "group") (Some "project") None None "{}" None None = Ok j0
    ∧ dict_get "job-1" (_jobs Examples.cancelable_client) = Some j0
    ∧ job_cancel "job-1" (ticks 2 "job-1" Examples.cancelable_client)
      = (c2, Ok tt)
    ∧ dict_get "job-1" (_jobs (ticks 4 "job-1" c2)) = Some j
    ∧ read_status "job-1" (ticks 4 "job-1" c2) = Ok "CANCELLED"
    ∧ to_dict j ∈ jobs (jobs_get None None (Some true) None None None None
                          (ticks 4 "job-1" c2)).
Proof.
  eexists.
  destruct (FakeJobsProps.cancelled_job_listed_as_pending "job-1" "sampler"
              (Some "hub") (Some "group") (Some "project") None "{}" None
              Examples.cancelable_client _ 2 4 eq_refl eq_refl)
    as (c2 & j & Hc & Hg & Hr & _ & _ & Hl & _).
  exists c2, j. split; [reflexivity|]. split; [reflexivity|].
  split; [exact Hc|]. split; [exact Hg|]. split; [exact Hr|exact Hl].
Defined.

Lemma program_create_then_get_witness :
  ∃ r',
    dict_get "qaoa" MoreExamples.two_programs = None
    ∧ MoreExamples.plain_decode "data-3" = Ok "data-3"
    ∧ FakePrograms.program_create "data-3" "qaoa" "Optimise" 900
        (Some MoreExamples.sample_spec) false MoreExamples.two_programs
      = (r', Ok "qaoa")
    ∧ ∀ other, other ≠ "qaoa" ->
        dict_get other r' = dict_get other MoreExamples.two_programs.
Proof.
  destruct (FakeProgramsProps.program_create_then_get MoreExamples.text_truthy
              MoreExamples.plain_decode "data-3" "qaoa" "Optimise" 900
              MoreExamples.sample_spec false MoreExamples.two_programs "data-3"
              eq_refl eq_refl) as (r' & Hc & _ & Ho & _).
  exists r'. split; [reflexivity|]. split; [reflexivity|]. by split.
Defined.

Lemma program_delete_removes_witness :
  ∃ p r',
    dict_get "sampler" MoreExamples.two_programs = Some p
    ∧ FakePrograms.program_delete "sampler" MoreExamples.two_programs
      = (r', Ok tt)
    ∧ FakePrograms.program_get MoreExamples.text_truthy
        MoreExamples.plain_decode "sampler" r'
      = Raise FakePrograms.not_found.
Proof.
  eexists.
  destruct (FakeProgramsProps.program_delete_removes MoreExamples.text_truthy
              MoreExamples.plain_decode "sampler" MoreExamples.two_programs _
              eq_refl) as (r' & Hd & Hg & _).
  exists r'. split; [reflexivity|]. by split.
Defined.


Lemma list_programs_search_witness :
  "sampl" ≠ ""
  ∧ ∃ d,
      FakePrograms.list_programs MoreExamples.text_truthy (Some "sampl") 10 0
        MoreExamples.two_programs
      = Ok {| FakePrograms.programs := [d]; FakePrograms.count := 1 |}
      ∧ FakePrograms.id d = "sampler".
Proof.
  split; [discriminate|].
  eexists. split.
  - etrans;
      [apply (FakeProgramsProps.list_programs_search MoreExamples.text_truthy
                "sampl" 10 0 MoreExamples.two_programs); discriminate|].
    reflexivity.
  - reflexivity.
Defined.

Lemma constructed_options_valid_witness :
  ∃ o o',
    Options.__init__ [Options.Set_is_simulator true] = Ok o
    ∧ OptionsUse.change_all
        [OptionsUse.AssignCouplingMap (Options.Value Examples.line_coupling_map);
         OptionsUse.Assign (Options.Set_resilience_level (Options.Value 3%Z));
         OptionsUse.Assign (Options.Set_optimization_level Options.Unset)] o
      = Ok o'
    ∧ OptionsUse.level_in_range (Options.optimization_level o')
    ∧ OptionsUse.level_in_range (Options.resilience_level o')
    ∧ Options.coupling_map_missing o' = false.
Proof.
  eexists _, _. split; [reflexivity|]. split; [reflexivity|].
  apply (OptionsMoreProps.constructed_options_valid
           [Options.Set_is_simulator true]
           [OptionsUse.AssignCouplingMap (Options.Value Examples.line_coupling_map);
            OptionsUse.Assign (Options.Set_resilience_level (Options.Value 3%Z));
            OptionsUse.Assign (Options.Set_optimization_level Options.Unset)]
           _ _ eq_refl eq_refl).
Defined.

Lemma assignments_imply_constructor_witness :
  ∃ o,
    OptionsUse.assign_all
      [Options.Set_is_simulator true;
       Options.Set_simulator
         {| Options.coupling_map := Options.Value Examples.line_coupling_map |};
       Options.Set_resilience_level (Options.Value 3%Z)] Options.defaults = Ok o
    ∧ Options.__init__
        [Options.Set_is_simulator true;
         Options.Set_simulator
           {| Options.coupling_map := Options.Value Examples.line_coupling_map |};
         Options.Set_resilience_level (Options.Value 3%Z)] = Ok o.
Proof.
  eexists. split; [reflexivity|].
  apply (OptionsMoreProps.assignments_imply_constructor
           [Options.Set_is_simulator true;
            Options.Set_simulator
              {| Options.coupling_map := Options.Value Examples.line_coupling_map |};
            Options.Set_resilience_level (Options.Value 3%Z)] _ eq_refl).
Defined.

Import Session Primitives.

Lemma write_raises_with_service_witness :
  _active Examples.session = true
  ∧ ∃ req,
      calls (write Examples.job_name Examples.counting_run ∅
               (Examples.session, Examples.world)).1.2
      = calls Examples.world
        ++ [(req, (Examples.counting_run (service Examples.world) req).2)].
Proof.
  split; [reflexivity|].
  destruct (SessionMoreProps.write_raises_with_service Examples.job_name
              Examples.counting_run Examples.session Examples.world ∅ eq_refl)
    as (req & Hc & _).
  by exists req.
Defined.

Lemma session_call_submits_then_reads_witness :
  _active Examples.session = true
  ∧ ∃ req,
      calls (EstimatorSession_call Examples.job_name Examples.counting_run
               MoreExamples.constant_result tt MoreExamples.any_entry
               MoreExamples.dict_as_value 1%Z ∅
               (Examples.session, Examples.world)).1.2
      = calls Examples.world
        ++ [(req, (Examples.counting_run (service Examples.world) req).2)]
      ∧ req_session_id req = None.
Proof.
  split; [reflexivity|].
  destruct (SessionMoreProps.session_call_submits_then_reads Examples.job_name
              Examples.counting_run MoreExamples.constant_result tt
              MoreExamples.any_entry MoreExamples.dict_as_value
              Examples.session Examples.world 1%Z ∅ eq_refl)
    as (_ & req & Hc & _ & Hs & _).
  exists req. by split.
Defined.

Lemma session_call_closed_witness :
  _active MoreExamples.closed_session = false
  ∧ SamplerSession_call Examples.job_name Examples.counting_run
      MoreExamples.constant_result tt MoreExamples.any_entry
      MoreExamples.dict_as_value 1%Z ∅
      (MoreExamples.closed_session, Examples.world)
    = ((MoreExamples.closed_session, Examples.world), Raise closed_error).
Proof.
  split; [reflexivity|].
  apply (SessionMoreProps.session_call_closed Examples.job_name
           Examples.counting_run MoreExamples.constant_result tt
           MoreExamples.any_entry MoreExamples.dict_as_value
           MoreExamples.closed_session Examples.world 1%Z ∅ eq_refl).
Defined.

End ExtraWitnesses.
